(** * CommandHandler: batch checking and language-specific settings

    A shallow embedding of [src/CommandHandler.ts] of the LTeX extension:
    - [getEnabledFileExtensions] and [checkAllDocumentsInWorkspace]
      (the batch checker), and
    - [addToLanguageSpecificSetting] with its two storage paths
      (external file and inline setting).

    The editor, the language client, the logger and the file manager are
    collaborators of the class.  Every call to one of them is an event of a
    trace, in the order of the calls; what they answer is an input of the
    model.  An [await] blocks the function that awaits.  A call to an
    [async] function that its caller does not await runs up to its first
    [await]; it goes on when the answer that it awaits arrives, which is
    after the code that started it has returned. *)

From Stdlib Require Import List String Ascii Bool Arith ZArith Lia.
From Stdlib Require Import Permutation Sorted.
Import ListNotations.
Local Open Scope string_scope.
Local Open Scope list_scope.

(** ** JavaScript helpers *)

Module JS.

(** [s.startsWith(p)] *)
Definition startsWith (s p : string) : bool := String.prefix p s.

(** [s.endsWith(p)]: the last [length p] characters of [s] are [p]. *)
Definition endsWith (s p : string) : bool :=
  (String.length p <=? String.length s)%nat &&
  String.eqb
    (String.substring (String.length s - String.length p) (String.length p) s) p.

(** [Array.prototype.sort(compareFn)] for a consistent comparison: a
    stable sort.  [le a b] stands for [compareFn(a, b) <= 0].  Elements are
    inserted from the right, each before the first element that is not
    smaller, so equal elements keep their order. *)
Section Sort.
Context {A : Type}.
Variable le : A -> A -> bool.

Fixpoint insert (x : A) (l : list A) : list A :=
  match l with
  | [] => [x]
  | y :: l' => if le x y then x :: y :: l' else y :: insert x l'
  end.

Fixpoint sort (l : list A) : list A :=
  match l with
  | [] => []
  | x :: l' => insert x (sort l')
  end.
End Sort.

(** [new Set<string>()] with [add]; a JavaScript set keeps insertion order,
    which [Array.from] returns. *)
Definition set_has (s : list string) (e : string) : bool :=
  existsb (String.eqb e) s.

Definition set_add (e : string) (s : list string) : list string :=
  if set_has s e then s else s ++ [e].

(** [array.sort()] without a comparison function orders strings by their
    code units. *)
Definition sortStrings (l : list string) : list string := sort String.leb l.

(** [array.join(sep)] *)
Definition join (sep : string) (l : list string) : string := String.concat sep l.

(** A plain object used as a map from strings: the keys are distinct and
    [for ... in] visits them in the order of the list. *)
Definition object (V : Type) : Type := list (string * V).

Definition keys {V : Type} (o : object V) : list string := map fst o.

(** [o[key]], [None] for [undefined] *)
Fixpoint get {V : Type} (o : object V) (key : string) : option V :=
  match o with
  | [] => None
  | (k, v) :: o' => if k =? key then Some v else get o' key
  end.

(** [o[key] = value]: an existing key keeps its place, a new one goes last. *)
Fixpoint set {V : Type} (o : object V) (key : string) (value : V) : object V :=
  match o with
  | [] => [(key, value)]
  | (k, v) :: o' => if k =? key then (k, value) :: o' else (k, v) :: set o' key value
  end.

End JS.

(** ** Shared data *)

(** [Code.Uri]: the file-system path and the string form of the URI. *)
Record Uri := mkUri { fsPath : string; uriToString : string }.

(** The [ltex.enabled] setting: a boolean or a list of code language ids. *)
Inductive EnabledSetting :=
| EnabledBool (b : bool)
| EnabledList (codeLanguageIds : list string).

(** ** getEnabledFileExtensions *)

Definition enabledCodeLanguageIds (enabled : EnabledSetting) : list string :=
  match enabled with
  | EnabledBool b => if b then ["bibtex"; "latex"; "markdown"; "rsweave"] else []
  | EnabledList ids => ids
  end.

(** The body of the [switch] on one code language id. *)
Definition addFileExtension (enabledFileExtensions : list string)
    (codeLanguageId : string) : list string :=
  if codeLanguageId =? "bibtex" then JS.set_add "bib" enabledFileExtensions
  else if (codeLanguageId =? "latex") || (codeLanguageId =? "rsweave")
  then JS.set_add "tex" enabledFileExtensions
  else if codeLanguageId =? "markdown" then JS.set_add "md" enabledFileExtensions
  else enabledFileExtensions.

Definition getEnabledFileExtensions (enabled : EnabledSetting) : list string :=
  JS.sortStrings (fold_left addFileExtension (enabledCodeLanguageIds enabled) []).

(** The extension that one code language id contributes. *)
Definition contributes (codeLanguageId e : string) : Prop :=
  (codeLanguageId = "bibtex" /\ e = "bib") \/
  ((codeLanguageId = "latex" \/ codeLanguageId = "rsweave") /\ e = "tex") \/
  (codeLanguageId = "markdown" /\ e = "md").

(** ** The batch checker *)

Module Batch.

(** The messages of [i18n] that the batch checker shows. *)
Inductive Message :=
| ltexNotInitialized
| couldNotCheckDocument (path : string) (errorMessage : option string)
| findingAllDocumentsInWorkspace
| checkingAllDocumentsInWorkspace
| checkingDocumentN (i n : nat) (name : string)
| couldNotCheckDocumentsAsNoFoldersWereOpened
| couldNotCheckDocumentsAsNoDocumentsWereFound.

(** The argument of the [ltex.checkDocument] request and its answer. *)
Record CheckArgs := mkArgs {
  uri : string;
  codeLanguageId : option string;
  text : option string }.

Record CheckResult := mkResult {
  success : bool;
  errorMessage : option string }.

(** Calls to the collaborators, with their answer where they have one.
    [StartTask] carries the weight of the task in percent, [UpdateTask i n]
    the progress [i / n].  Opening the progress notification and creating
    the [ProgressStack] are not recorded. *)
Inductive Event :=
| ShowErrorMessage (m : Message)
| StartTask (percent : nat) (m : Message)
| UpdateTask (i n : nat) (m : Message)
| FinishTask
| FindFiles (glob : string) (found : list Uri)
| SendRequest (args : CheckArgs) (result : CheckResult).

(** What the handler is run in.  [languageClient] tells whether
    [_languageClient] is set, [workspaceFolders] whether a folder is open.
    The cancellation token, the workspace and the language server answer
    depending on what happened so far; [localeCompare] and [basename] are
    those of the platform. *)
Record Environment := mkEnv {
  languageClient : bool;
  enabled : EnabledSetting;
  workspaceFolders : bool;
  isCancellationRequested : list Event -> bool;
  findFiles : list Event -> string -> list Uri;
  sendRequest : list Event -> CheckArgs -> CheckResult;
  localeCompare : string -> string -> Z;
  basename : string -> string }.

Section Handler.
Variable env : Environment.

Definition checkDocument (u : Uri) (codeLanguageId text : option string)
    (t : list Event) : bool * list Event :=
  if negb (languageClient env) then
    (false, t ++ [ShowErrorMessage ltexNotInitialized])
  else
    let args := mkArgs (uriToString u) codeLanguageId text in
    let result := sendRequest env t args in
    let t := t ++ [SendRequest args result] in
    if success result then (true, t)
    else (false, t ++ [ShowErrorMessage
                         (couldNotCheckDocument (fsPath u) (errorMessage result))]).

(** The [for] loop over [uris], entered at index [i] with [uris] the
    documents from index [i] on.  [Some b] is [return b] from inside the
    loop, [None] the end of the loop. *)
Fixpoint checkLoop (n i : nat) (uris : list Uri) (t : list Event)
    : option bool * list Event :=
  match uris with
  | [] => (None, t)
  | u :: uris' =>
      let t := t ++ [UpdateTask i n
                       (checkingDocumentN (i + 1) n (basename env (fsPath u)))] in
      if isCancellationRequested env t then (Some true, t)
      else
        let (success, t) := checkDocument u None None t in
        if negb success then (Some false, t)
        else checkLoop n (S i) uris' t
  end.

(** The comparison given to [uris.sort]. *)
Definition comparePaths (lhs rhs : Uri) : bool :=
  (localeCompare env (fsPath lhs) (fsPath rhs) <=? 0)%Z.

Definition checkAllDocumentsInWorkspace (t : list Event) : bool * list Event :=
  if negb (languageClient env) then
    (false, t ++ [ShowErrorMessage ltexNotInitialized])
  else
    let t := t ++ [StartTask 10 findingAllDocumentsInWorkspace] in
    if isCancellationRequested env t then (true, t)
    else
      let fileExtensions := getEnabledFileExtensions (enabled env) in
      if (List.length fileExtensions =? 0)%nat then (true, t)
      else
        let fileExtensionWildcard := JS.join "," fileExtensions in
        let glob := ("**/*.{" ++ fileExtensionWildcard ++ "}")%string in
        let found := findFiles env t glob in
        let t := t ++ [FindFiles glob found] in
        let uris := JS.sort comparePaths found in
        let t := t ++ [FinishTask] in
        let t := t ++ [StartTask 90 checkingAllDocumentsInWorkspace] in
        let n := List.length uris in
        match checkLoop n 0 uris t with
        | (Some result, t) => (result, t)
        | (None, t) =>
            let t := t ++ [FinishTask] in
            if (0 <? n)%nat then (true, t)
            else
              (false, t ++ [ShowErrorMessage
                              (if workspaceFolders env
                               then couldNotCheckDocumentsAsNoDocumentsWereFound
                               else couldNotCheckDocumentsAsNoFoldersWereOpened)])
        end.

End Handler.

(** The documents for which a check request was sent, in the order of the
    requests. *)
Fixpoint requested (t : list Event) : list string :=
  match t with
  | [] => []
  | SendRequest args _ :: t' => uri args :: requested t'
  | _ :: t' => requested t'
  end.

End Batch.

(** ** Language-specific settings *)

Module Settings.

(** [Code.ConfigurationTarget] *)
Inductive ConfigurationTarget := Global | Workspace | WorkspaceFolder.

(** [LanguageSpecificSettingValue]: language to list of entries. *)
Definition LanguageSpecificSettingValue : Type := JS.object (list string).

Inductive Message :=
| invalidValueForConfigurationTarget (scopeString : string)
| couldNotSetConfiguration (settingName : string).

(** Calls to the collaborators.  [Get] is [get] on the configuration of the
    section for the document, [Update] is [update] with the rejection it met,
    if any. *)
Inductive Event :=
| Get (section key : string)
| Update (settingName : string) (value : LanguageSpecificSettingValue)
    (target : ConfigurationTarget) (rejection : option string)
| GetFirstExternalFilePath (u : Uri) (settingName : string)
    (scope : ConfigurationTarget) (language : string)
| AppendToFile (path settingName : string) (entries : list string)
| LoggerError (m : Message) (cause : option string).

(** The configuration as resolved for the target document, the external
    files, and the trace.  [settings name] is what [get(name, {})] yields
    in section [ltex]; [updateRejection target] is the cause with which an
    [update] at that target is rejected, if it is. *)
Record World := mkWorld {
  configurationTarget : string -> option string;
  settings : string -> LanguageSpecificSettingValue;
  updateRejection : ConfigurationTarget -> option string;
  externalFilePath : Uri -> string -> ConfigurationTarget -> string -> option string;
  fileContents : string -> list string;
  trace : list Event }.

Definition log (e : Event) (w : World) : World :=
  mkWorld (configurationTarget w) (settings w) (updateRejection w)
          (externalFilePath w) (fileContents w) (trace w ++ [e]).

(** A statement completes normally or throws. *)
Inductive Completion (A : Type) :=
| Normal (a : A)
| Throw (cause : string).
Arguments Normal {A} a.
Arguments Throw {A} cause.

Definition M (A : Type) : Type := World -> Completion A * World.

Definition ret {A : Type} (a : A) : M A := fun w => (Normal a, w).

Definition bind {A B : Type} (m : M A) (k : A -> M B) : M B :=
  fun w =>
    match m w with
    | (Normal a, w') => k a w'
    | (Throw cause, w') => (Throw cause, w')
    end.

(** [try { body } catch (e) { handler e }] *)
Definition tryCatch {A : Type} (body : M A) (handler : string -> M A) : M A :=
  fun w =>
    match body w with
    | (Normal a, w') => (Normal a, w')
    | (Throw cause, w') => handler cause w'
    end.

Notation "x <- m ;; k" := (bind m (fun x => k))
  (at level 61, m at next level, right associativity).
Notation "m ;;; k" := (bind m (fun _ => k))
  (at level 61, right associativity).

Definition Logger_error (m : Message) (cause : option string) : M unit :=
  fun w => (Normal tt, log (LoggerError m cause) w).

(** [resourceConfig.update(settingName, value, target)]: a rejected update
    throws its cause and stores nothing; an accepted one makes [get] yield
    the written value. *)
Definition update (settingName : string) (value : LanguageSpecificSettingValue)
    (target : ConfigurationTarget) : M unit :=
  fun w =>
    match updateRejection w target with
    | Some cause => (Throw cause, log (Update settingName value target (Some cause)) w)
    | None =>
        (Normal tt,
         mkWorld (configurationTarget w)
                 (fun name => if name =? settingName then value else settings w name)
                 (updateRejection w) (externalFilePath w) (fileContents w)
                 (trace w ++ [Update settingName value target None]))
    end.

(** Modelled from the spec: [ExternalFileManager.appendToFile] is not
    under src/.  The spec gives the file store append semantics: the
    new entries are added at the end of the file. *)
Definition appendToFile (path settingName : string) (entries : list string)
    (w : World) : World :=
  mkWorld (configurationTarget w) (settings w) (updateRejection w)
          (externalFilePath w)
          (fun p => if p =? path then fileContents w p ++ entries else fileContents w p)
          (trace w ++ [AppendToFile path settingName entries]).

(** Modelled from the spec:
    [WorkspaceConfigurationRequestHandler.cleanUpWorkspaceSpecificStringArray]
    is not under src/.  The spec calls it normalization: deduplication
    and deterministic ordering of the list. *)
Definition normalize (l : list string) : list string :=
  JS.sortStrings (nodup string_dec l).

(** A call of the inline path that is suspended at its [await]: the update
    of [suspendedValue] has been sent to [awaited], the target at index
    [index] of a chain of [chainLength] targets, and is not answered yet;
    [remaining] are the targets of the chain after it. *)
Record Suspended := mkSuspended {
  suspendedName : string;
  suspendedValue : LanguageSpecificSettingValue;
  chainLength : nat;
  index : nat;
  awaited : ConfigurationTarget;
  remaining : list ConfigurationTarget }.

(** [resourceConfig.update(settingName, value, target)] in a call that
    nobody awaits: the request is sent, and the store answers it once the
    code that is running has returned.  The event carries the answer that
    the request will get. *)
Definition sendUpdate (settingName : string) (value : LanguageSpecificSettingValue)
    (target : ConfigurationTarget) (w : World) : World :=
  log (Update settingName value target (updateRejection w target)) w.

(** The answer to the awaited update arrives and the call goes on, to its
    end or to its next [await]: an accepted update is stored and the call
    returns; after a rejected one the [catch] block runs and the loop sends
    the update to the next target. *)
Definition resume (c : Suspended) (w : World) : option Suspended * World :=
  match updateRejection w (awaited c) with
  | None =>
      (None,
       mkWorld (configurationTarget w)
               (fun name => if name =? suspendedName c then suspendedValue c
                            else settings w name)
               (updateRejection w) (externalFilePath w) (fileContents w) (trace w))
  | Some cause =>
      let w :=
        if (index c =? chainLength c - 1)%nat
        then log (LoggerError (couldNotSetConfiguration (suspendedName c)) (Some cause)) w
        else w in
      match remaining c with
      | [] => (None, w)
      | scope :: scopes' =>
          (Some (mkSuspended (suspendedName c) (suspendedValue c) (chainLength c)
                             (S (index c)) scope scopes'),
           sendUpdate (suspendedName c) (suspendedValue c) scope w)
      end
  end.

(** A call that has gone on: it is suspended again, or it has returned. *)
Definition suspendedAgain (next : option Suspended) : list Suspended :=
  match next with
  | Some c => [c]
  | None => []
  end.

(** The suspended calls go on one after the other until none is left.
    [pending] holds them in the order in which their updates were sent, and
    the store answers the updates in that order.  Each answer takes one unit
    of [fuel]. *)
Fixpoint settle (fuel : nat) (pending : list Suspended) (w : World)
    : list Suspended * World :=
  match fuel, pending with
  | S fuel', c :: pending' =>
      let (next, w) := resume c w in
      settle fuel' (pending' ++ suspendedAgain next) w
  | _, _ => (pending, w)
  end.

(** The number of answers that the suspended calls can still await: a call
    takes at most one for each target that is left to it. *)
Definition answersAwaited (pending : list Suspended) : nat :=
  list_sum (map (fun c => S (List.length (remaining c))) pending).

Section Handler.

(** [WorkspaceConfigurationRequestHandler.cleanUpWorkspaceSpecificStringArray] *)
Variable cleanUpWorkspaceSpecificStringArray : list string -> list string.

(** [entries[language]] for a key of [entries] *)
Definition entriesOf (entries : LanguageSpecificSettingValue) (language : string)
    : list string :=
  match JS.get entries language with
  | Some v => v
  | None => []
  end.

(** The body of the first loop of the inline path. *)
Definition mergeLanguage (entries : LanguageSpecificSettingValue)
    (settingValue : LanguageSpecificSettingValue) (language : string)
    : LanguageSpecificSettingValue :=
  let languageSettingValue :=
    match JS.get settingValue language with
    | Some v => v
    | None => []
    end in
  let languageSettingValue := languageSettingValue ++ entriesOf entries language in
  JS.set settingValue language
         (cleanUpWorkspaceSpecificStringArray languageSettingValue).

(** The second loop of the inline path, entered at index [i] with [scopes]
    the targets from index [i] on and [n] the length of the whole chain. *)
Fixpoint updateLoop (settingName : string) (settingValue : LanguageSpecificSettingValue)
    (n i : nat) (scopes : list ConfigurationTarget) : M unit :=
  match scopes with
  | [] => ret tt
  | scope :: scopes' =>
      returned <-
        tryCatch
          (update settingName settingValue scope ;;; ret true)
          (fun e =>
             (if (i =? n - 1)%nat
              then Logger_error (couldNotSetConfiguration settingName) (Some e)
              else ret tt) ;;;
             ret false) ;;
      if (returned : bool) then ret tt
      else updateLoop settingName settingValue n (S i) scopes'
  end.

Definition addToLanguageSpecificSettingInternalSetting (u : Uri) (settingName : string)
    (scopes : list ConfigurationTarget) (entries : LanguageSpecificSettingValue)
    : M unit :=
  fun w =>
    let w := log (Get "ltex" settingName) w in
    let settingValue := settings w settingName in
    let settingValue := fold_left (mergeLanguage entries) (JS.keys entries) settingValue in
    updateLoop settingName settingValue (List.length scopes) 0 scopes w.

(** The loop over the scopes for one language of the external-file path;
    the boolean is [settingWritten]. *)
Fixpoint externalFileScopes (u : Uri) (settingName language : string)
    (entries : LanguageSpecificSettingValue) (scopes : list ConfigurationTarget)
    (w : World) : bool * World :=
  match scopes with
  | [] => (false, w)
  | scope :: scopes' =>
      let w := log (GetFirstExternalFilePath u settingName scope language) w in
      match externalFilePath w u settingName scope language with
      | Some path => (true, appendToFile path settingName (entriesOf entries language) w)
      | None => externalFileScopes u settingName language entries scopes' w
      end
  end.

(** [addToLanguageSpecificSettingInternalSetting] as a call that its
    caller does not await: it runs up to its first [await], which is on the
    update at the first target, or to its end when there is no target. *)
Definition startInternalSetting (u : Uri) (settingName : string)
    (scopes : list ConfigurationTarget) (entries : LanguageSpecificSettingValue)
    (w : World) : option Suspended * World :=
  let w := log (Get "ltex" settingName) w in
  let settingValue := settings w settingName in
  let settingValue := fold_left (mergeLanguage entries) (JS.keys entries) settingValue in
  match scopes with
  | [] => (None, w)
  | scope :: scopes' =>
      (Some (mkSuspended settingName settingValue (List.length scopes) 0 scope scopes'),
       sendUpdate settingName settingValue scope w)
  end.

(** The body of the loop over the languages.  The inline path is started
    and its promise dropped: the call is left suspended at its first
    [await], after the calls that earlier languages have left, and the loop
    goes on. *)
Definition externalFileLanguage (u : Uri) (settingName : string)
    (scopes : list ConfigurationTarget) (entries : LanguageSpecificSettingValue)
    (state : list Suspended * World) (language : string) : list Suspended * World :=
  let (pending, w) := state in
  let (settingWritten, w) := externalFileScopes u settingName language entries scopes w in
  if negb settingWritten then
    let languageEntries := JS.set [] language (entriesOf entries language) in
    let (call, w) := startInternalSetting u settingName scopes languageEntries w in
    (pending ++ suspendedAgain call, w)
  else (pending, w).

(** The loop over the languages, and then the calls that it has left
    suspended, until all of them have returned. *)
Definition addToLanguageSpecificSettingExternalFile (u : Uri) (settingName : string)
    (scopes : list ConfigurationTarget) (entries : LanguageSpecificSettingValue)
    (w : World) : World :=
  let (pending, w) :=
    fold_left (externalFileLanguage u settingName scopes entries) (JS.keys entries)
              ([], w) in
  snd (settle (answersAwaited pending) pending w).

(** [resourceConfig.get(key)] in section [ltex.configurationTarget] *)
Definition getScope (key : string) (w : World) : option string * World :=
  (configurationTarget w key, log (Get "ltex.configurationTarget" key) w).

Definition addToLanguageSpecificSetting (u : Uri) (settingName : string)
    (entries : LanguageSpecificSettingValue) (w : World) : World :=
  let (scopeString, w) := getScope settingName w in
  let (scopeString, w) :=
    match scopeString with
    | None =>
        if settingName =? "dictionary" then getScope "addToDictionary" w
        else if settingName =? "disabledRules" then getScope "disableRule" w
        else if settingName =? "hiddenFalsePositives" then getScope "ignoreRuleInSentence" w
        else (scopeString, w)
    | Some _ => (scopeString, w)
    end in
  let store (scopes : list ConfigurationTarget) : World :=
    let externalFile :=
      match scopeString with
      | None => true
      | Some s => JS.endsWith s "ExternalFile"
      end in
    if externalFile then
      addToLanguageSpecificSettingExternalFile u settingName scopes entries w
    else
      snd (addToLanguageSpecificSettingInternalSetting u settingName scopes entries w) in
  match scopeString with
  | None => store [WorkspaceFolder; Workspace; Global]
  | Some s =>
      if JS.startsWith s "workspaceFolder" then store [WorkspaceFolder; Workspace; Global]
      else if JS.startsWith s "workspace" then store [Workspace; Global]
      else if JS.startsWith s "user" || JS.startsWith s "global" then store [Global]
      else log (LoggerError (invalidValueForConfigurationTarget s) None) w
  end.

End Handler.

End Settings.

(** ** Vocabulary of the statements *)

(** A consistent comparison function, as [Array.prototype.sort] expects:
    swapping the arguments swaps the sign, and the order is transitive. *)
Definition consistent (compare : string -> string -> Z) : Prop :=
  (forall a b, (compare a b < 0)%Z <-> (0 < compare b a)%Z) /\
  (forall a b c, (compare a b <= 0)%Z -> (compare b c <= 0)%Z -> (compare a c <= 0)%Z).

(** The check points of the batch checker: the cancellation token is read
    right after the discovery task is started and right after the progress
    of a document is reported. *)
Definition checkPoint (e : Batch.Event) : bool :=
  match e with
  | Batch.StartTask _ Batch.findingAllDocumentsInWorkspace => true
  | Batch.UpdateTask _ _ _ => true
  | _ => false
  end.

(** The names of the batch checker's local constants: the pattern given to
    [findFiles], the documents it finds when called after the trace [t] of
    the call so far, the sorted documents, and the events of the discovery
    phase. *)
Definition searchPattern (env : Batch.Environment) : string :=
  ("**/*.{" ++ JS.join "," (getEnabledFileExtensions (Batch.enabled env)) ++ "}")%string.

Definition discovered (env : Batch.Environment) (t : list Batch.Event) : list Uri :=
  Batch.findFiles env (t ++ [Batch.StartTask 10 Batch.findingAllDocumentsInWorkspace])
                  (searchPattern env).

Definition sortedDocuments (env : Batch.Environment) (t : list Batch.Event) : list Uri :=
  JS.sort (Batch.comparePaths env) (discovered env t).

Definition discoveryEvents (env : Batch.Environment) (t : list Batch.Event)
    : list Batch.Event :=
  [Batch.StartTask 10 Batch.findingAllDocumentsInWorkspace;
   Batch.FindFiles (searchPattern env) (discovered env t);
   Batch.FinishTask;
   Batch.StartTask 90 Batch.checkingAllDocumentsInWorkspace].

(** The deprecated name under which the scope of a setting may still be
    configured. *)
Definition deprecatedAlias (settingName : string) : option string :=
  if settingName =? "dictionary" then Some "addToDictionary"
  else if settingName =? "disabledRules" then Some "disableRule"
  else if settingName =? "hiddenFalsePositives" then Some "ignoreRuleInSentence"
  else None.

(** A target at which the world rejects an update. *)
Definition rejects (w : Settings.World) (target : Settings.ConfigurationTarget) : Prop :=
  Settings.updateRejection w target <> None.

(** The world after the given calls have been added to the trace. *)
Definition logAll (events : list Settings.Event) (w : Settings.World) : Settings.World :=
  fold_left (fun w e => Settings.log e w) events w.

(** The entries that a setting value has for a language. *)
Definition existingEntries (value : Settings.LanguageSpecificSettingValue)
    (language : string) : list string :=
  match JS.get value language with
  | Some v => v
  | None => []
  end.

(** The scope preference that a call resolves for a setting: the value
    configured under the name of the setting, and when there is none, the
    value configured under its deprecated alias. *)
Definition scopeStringOf (w : Settings.World) (settingName : string) : option string :=
  match Settings.configurationTarget w settingName with
  | Some s => Some s
  | None =>
      match deprecatedAlias settingName with
      | Some alias => Settings.configurationTarget w alias
      | None => None
      end
  end.

(** The reads of the configuration that resolving the scope preference
    takes. *)
Definition scopeReads (w : Settings.World) (settingName : string) : list Settings.Event :=
  Settings.Get "ltex.configurationTarget" settingName ::
  match Settings.configurationTarget w settingName with
  | Some _ => []
  | None =>
      match deprecatedAlias settingName with
      | Some alias => [Settings.Get "ltex.configurationTarget" alias]
      | None => []
      end
  end.

(** The storage path that a resolved scope preference selects, run with a
    chain of targets: external files for no preference and for one that ends
    with ExternalFile, the inline setting otherwise. *)
Definition store (cleanUp : list string -> list string) (u : Uri) (settingName : string)
    (entries : Settings.LanguageSpecificSettingValue) (scopeString : option string)
    (scopes : list Settings.ConfigurationTarget) (w : Settings.World) : Settings.World :=
  let externalFile :=
    match scopeString with
    | None => true
    | Some s => JS.endsWith s "ExternalFile"
    end in
  if externalFile then
    Settings.addToLanguageSpecificSettingExternalFile cleanUp u settingName scopes entries w
  else
    snd (Settings.addToLanguageSpecificSettingInternalSetting
           cleanUp u settingName scopes entries w).

(** A call that changes what is stored: an update of the configuration or
    an append to a file. *)
Definition isWrite (e : Settings.Event) : bool :=
  match e with
  | Settings.Update _ _ _ _ => true
  | Settings.AppendToFile _ _ _ => true
  | _ => false
  end.

Definition isUpdate (e : Settings.Event) : bool :=
  match e with
  | Settings.Update _ _ _ _ => true
  | _ => false
  end.

Definition isError (e : Settings.Event) : bool :=
  match e with
  | Settings.LoggerError _ _ => true
  | _ => false
  end.

(** The event of an update of a setting at a target, with the answer of
    the world. *)
Definition attemptAt (settingName : string) (value : Settings.LanguageSpecificSettingValue)
    (w : Settings.World) (target : Settings.ConfigurationTarget) : Settings.Event :=
  Settings.Update settingName value target (Settings.updateRejection w target).

(** The inputs of a world that the handler never changes. *)
Definition sameInputs (w w' : Settings.World) : Prop :=
  Settings.configurationTarget w' = Settings.configurationTarget w /\
  Settings.updateRejection w' = Settings.updateRejection w /\
  Settings.externalFilePath w' = Settings.externalFilePath w.

(** The lookup of the external file of a language at a target, and a target
    without such a file. *)
Definition lookupAt (u : Uri) (settingName language : string)
    (scope : Settings.ConfigurationTarget) : Settings.Event :=
  Settings.GetFirstExternalFilePath u settingName scope language.

Definition noFileAt (w : Settings.World) (u : Uri) (settingName language : string)
    (scope : Settings.ConfigurationTarget) : Prop :=
  Settings.externalFilePath w u settingName scope language = None.

(** An error message shown to the user. *)
Definition isShowError (e : Batch.Event) : bool :=
  match e with
  | Batch.ShowErrorMessage _ => true
  | _ => false
  end.

(** The code language ids that [getEnabledFileExtensions] knows. *)
Definition knownLanguage (codeLanguageId : string) : bool :=
  (codeLanguageId =? "bibtex") || (codeLanguageId =? "latex")
  || (codeLanguageId =? "rsweave") || (codeLanguageId =? "markdown").

(** The message of a search without result. *)
Definition nothingFound (env : Batch.Environment) : Batch.Message :=
  if Batch.workspaceFolders env
  then Batch.couldNotCheckDocumentsAsNoDocumentsWereFound
  else Batch.couldNotCheckDocumentsAsNoFoldersWereOpened.

(** A call to the file manager. *)
Definition isFileEvent (e : Settings.Event) : bool :=
  match e with
  | Settings.GetFirstExternalFilePath _ _ _ _ => true
  | Settings.AppendToFile _ _ _ => true
  | _ => false
  end.





(** ** Sample inputs *)

Module Sample.

(** Comparison of paths by code units, in the place of [localeCompare]. *)
Definition compareCodeUnits (a b : string) : Z :=
  match String.compare a b with
  | Lt => (-1)%Z
  | Eq => 0%Z
  | Gt => 1%Z
  end.

Definition file (name : string) : Uri :=
  mkUri ("/w/" ++ name)%string ("file:///w/" ++ name)%string.

Definition a_tex : Uri := file "a.tex".
Definition b_tex : Uri := file "b.tex".
Definition c_tex : Uri := file "c.tex".

(** A server that fails on one document, and one that never fails. *)
Definition failsOn (document : string) (t : list Batch.Event) (args : Batch.CheckArgs)
    : Batch.CheckResult :=
  if Batch.uri args =? document
  then Batch.mkResult false (Some "failed")
  else Batch.mkResult true None.

Definition succeeds (t : list Batch.Event) (args : Batch.CheckArgs) : Batch.CheckResult :=
  Batch.mkResult true None.

(** A workspace with the given documents, a server, and a token that is set
    as the predicate says. *)
Definition environment (found : list Uri)
    (server : list Batch.Event -> Batch.CheckArgs -> Batch.CheckResult)
    (cancelled : list Batch.Event -> bool) : Batch.Environment :=
  Batch.mkEnv true (EnabledBool true) true cancelled
    (fun _ _ => found) server compareCodeUnits (fun path => path).

Definition never (t : list Batch.Event) : bool := false.

(** Set once the documents have been searched. *)
Definition afterDiscovery (t : list Batch.Event) : bool :=
  existsb (fun e => match e with Batch.FindFiles _ _ => true | _ => false end) t.

(** The runs of the batch checker used below: one document fails, no
    document fails, the token is set after the search. *)
Definition failing : Batch.Environment :=
  environment [b_tex; a_tex; c_tex] (failsOn "file:///w/b.tex") never.

Definition plain : Batch.Environment :=
  environment [b_tex; a_tex; c_tex] succeeds never.

Definition cancelledFirst : Batch.Environment :=
  environment [b_tex; a_tex; c_tex] succeeds afterDiscovery.

Definition cancelledEmpty : Batch.Environment :=
  environment [] succeeds afterDiscovery.

Definition request (u : Uri) : Batch.CheckArgs :=
  Batch.mkArgs (uriToString u) None None.

Definition progress (i : nat) (u : Uri) : Batch.Event :=
  Batch.UpdateTask i 3 (Batch.checkingDocumentN (i + 1) 3 (fsPath u)).

Definition failure : Batch.CheckResult := Batch.mkResult false (Some "failed").

Definition untilFailure : list Batch.Event :=
  discoveryEvents failing []
    ++ [progress 0 a_tex;
        Batch.SendRequest (request a_tex) (Batch.mkResult true None);
        progress 1 b_tex].

Definition afterFailure : list Batch.Event :=
  [Batch.ShowErrorMessage (Batch.couldNotCheckDocument "/w/b.tex" (Some "failed"))].

(** Worlds of the settings: a document, a configuration of the scope
    preference with one key, a dictionary with two languages. *)
Definition document : Uri := file "text.md".

Definition preference (key value : string) : string -> option string :=
  fun k => if k =? key then Some value else None.

Definition dictionary : string -> Settings.LanguageSpecificSettingValue :=
  fun name =>
    if name =? "dictionary" then [("en-US", ["foo"]); ("de-DE", ["Haus"])] else [].

Definition noFiles : Uri -> string -> Settings.ConfigurationTarget -> string -> option string :=
  fun _ _ _ _ => None.

Definition world (target : string -> option string)
    (rejection : Settings.ConfigurationTarget -> option string)
    (paths : Uri -> string -> Settings.ConfigurationTarget -> string -> option string)
    : Settings.World :=
  Settings.mkWorld target dictionary rejection paths
    (fun path => if path =? "/w/dictionary.txt" then ["foo"] else []) [].

Definition accepting : Settings.ConfigurationTarget -> option string := fun _ => None.

(** No folder and no workspace is open: only the user level takes updates. *)
Definition onlyGlobal : Settings.ConfigurationTarget -> option string :=
  fun target =>
    match target with
    | Settings.Global => None
    | Settings.Workspace => Some "no workspace is opened"
    | Settings.WorkspaceFolder => Some "no folder is opened"
    end.


Definition newEntries : Settings.LanguageSpecificSettingValue :=
  [("en-US", ["foo"; "bar"])].

Definition invalid : Settings.World :=
  world (preference "dictionary" "invalidScope") accepting noFiles.

Definition aliased : Settings.World :=
  world (preference "addToDictionary" "workspace") accepting noFiles.

Definition emptyPreference : Settings.World :=
  world (fun k => if k =? "dictionary" then Some ""
                  else if k =? "addToDictionary" then Some "workspaceFolder"
                  else None)
        accepting noFiles.

Definition user : Settings.World :=
  world (preference "dictionary" "user") accepting noFiles.

Definition folderless : Settings.World :=
  world (preference "dictionary" "workspaceFolder") onlyGlobal noFiles.


(** Workspaces in which the search finds nothing: with a folder, and with
    no folder open. *)
Definition emptyWorkspace : Batch.Environment := environment [] succeeds never.

Definition noFolder : Batch.Environment :=
  Batch.mkEnv true (EnabledBool true) false never
    (fun _ _ => []) succeeds compareCodeUnits (fun path => path).

(** The checking is enabled for languages that have no file extension
    here. *)
Definition unknownIds : Batch.Environment :=
  Batch.mkEnv true (EnabledList ["html"; "plaintext"]) true afterDiscovery
    (fun _ _ => [a_tex]) succeeds compareCodeUnits (fun path => path).

Definition chain : list Settings.ConfigurationTarget :=
  [Settings.WorkspaceFolder; Settings.Workspace; Settings.Global].



End Sample.

(** ** Facts on the helpers *)

Section SortFacts.
Context {A : Type}.
Variable le : A -> A -> bool.

Lemma insert_perm (x : A) (l : list A) : Permutation (x :: l) (JS.insert le x l).
Proof.
  induction l as [|y l IH]; simpl.
  - apply Permutation_refl.
  - destruct (le x y).
    + apply Permutation_refl.
    + eapply perm_trans; [apply perm_swap|]. now apply perm_skip.
Qed.

Lemma sort_perm (l : list A) : Permutation l (JS.sort le l).
Proof.
  induction l as [|x l IH]; simpl.
  - constructor.
  - eapply perm_trans; [apply perm_skip, IH|]. apply insert_perm.
Qed.

Lemma sort_In (l : list A) (x : A) : In x (JS.sort le l) <-> In x l.
Proof.
  split; apply Permutation_in; [symmetry|]; apply sort_perm.
Qed.

Lemma sort_NoDup (l : list A) : NoDup l -> NoDup (JS.sort le l).
Proof. apply Permutation_NoDup, sort_perm. Qed.

(** With a total and transitive comparison the result is sorted. *)
Hypothesis le_total : forall a b, le a b = true \/ le b a = true.
Hypothesis le_trans : forall a b c, le a b = true -> le b c = true -> le a c = true.

Lemma insert_sorted (x : A) (l : list A) :
  StronglySorted (fun a b => le a b = true) l ->
  StronglySorted (fun a b => le a b = true) (JS.insert le x l).
Proof.
  induction 1 as [|y l Hs IH Hy]; simpl.
  - repeat constructor.
  - destruct (le x y) eqn:E.
    + constructor; [constructor; assumption|].
      constructor; [assumption|].
      eapply Forall_impl; [|exact Hy]. intros z Hz. now apply le_trans with y.
    + constructor; [assumption|].
      assert (Hyx : le y x = true) by (destruct (le_total x y); congruence).
      eapply Permutation_Forall; [apply insert_perm|]. now constructor.
Qed.

Lemma sort_sorted (l : list A) :
  StronglySorted (fun a b => le a b = true) (JS.sort le l).
Proof.
  induction l; simpl; [constructor | now apply insert_sorted].
Qed.
End SortFacts.

(** The order of strings by code units is transitive. *)
Lemma string_leb_trans (a b c : string) :
  (a <=? b) = true -> (b <=? c) = true -> (a <=? c) = true.
Proof.
  unfold String.leb. revert b c.
  induction a as [|x a IH]; intros [|y b] [|z c]; simpl; try easy.
  unfold Ascii.compare.
  destruct (N.compare_spec (N_of_ascii x) (N_of_ascii y)),
           (N.compare_spec (N_of_ascii y) (N_of_ascii z)),
           (N.compare_spec (N_of_ascii x) (N_of_ascii z));
    try easy; try lia.
  apply IH.
Qed.

Lemma string_leb_neq_ltb (a b : string) :
  (a <=? b) = true -> a <> b -> (a <? b) = true.
Proof.
  unfold String.leb, String.ltb. intros H Hne.
  destruct (a ?= b) eqn:E; try easy.
  now apply String.compare_eq_iff in E.
Qed.

Lemma sorted_NoDup_strict (l : list string) :
  StronglySorted (fun a b => (a <=? b) = true) l -> NoDup l ->
  StronglySorted (fun a b => (a <? b) = true) l.
Proof.
  induction 1 as [|x l Hs IH Hx]; intros Hnd; constructor;
    inversion Hnd as [|? ? Hnin Hnd']; subst.
  - now apply IH.
  - apply Forall_forall. intros y Hy. apply string_leb_neq_ltb.
    + now apply (proj1 (Forall_forall _ _) Hx).
    + intros ->. contradiction.
Qed.

Lemma sortStrings_sorted (l : list string) :
  NoDup l -> StronglySorted (fun a b => (a <? b) = true) (JS.sortStrings l).
Proof.
  intros Hnd. apply sorted_NoDup_strict.
  - apply sort_sorted; [apply String.leb_total | apply string_leb_trans].
  - now apply sort_NoDup.
Qed.

(** ** getEnabledFileExtensions *)

Lemma set_has_In (s : list string) (e : string) : JS.set_has s e = true <-> In e s.
Proof.
  unfold JS.set_has. rewrite existsb_exists. split.
  - intros [x [Hx Heq]]. apply String.eqb_eq in Heq. now subst.
  - intros H. exists e. split; [assumption | apply String.eqb_refl].
Qed.

Lemma set_add_In (e x : string) (s : list string) :
  In x (JS.set_add e s) <-> x = e \/ In x s.
Proof.
  unfold JS.set_add. destruct (JS.set_has s e) eqn:E.
  - apply set_has_In in E. split; [auto | intros [->|]; auto].
  - rewrite in_app_iff. simpl. intuition.
Qed.

Lemma set_add_NoDup (e : string) (s : list string) : NoDup s -> NoDup (JS.set_add e s).
Proof.
  intros Hnd. unfold JS.set_add. destruct (JS.set_has s e) eqn:E; [assumption|].
  assert (Hnin : ~ In e s).
  { intros Hin. apply set_has_In in Hin. congruence. }
  apply NoDup_rev in Hnd. rewrite <- (rev_involutive (s ++ [e])).
  apply NoDup_rev. rewrite rev_app_distr. simpl. constructor; [|assumption].
  now rewrite <- in_rev.
Qed.

Lemma addFileExtension_In (s : list string) (id e : string) :
  In e (addFileExtension s id) <-> In e s \/ contributes id e.
Proof.
  unfold addFileExtension, contributes.
  destruct (String.eqb_spec id "bibtex") as [->|Hb]; simpl.
  { rewrite set_add_In. intuition congruence. }
  destruct (String.eqb_spec id "latex") as [->|Hl]; simpl.
  { rewrite set_add_In. intuition congruence. }
  destruct (String.eqb_spec id "rsweave") as [->|Hr]; simpl.
  { rewrite set_add_In. intuition congruence. }
  destruct (String.eqb_spec id "markdown") as [->|Hm]; simpl.
  { rewrite set_add_In. intuition congruence. }
  intuition.
Qed.

Lemma addFileExtension_NoDup (s : list string) (id : string) :
  NoDup s -> NoDup (addFileExtension s id).
Proof.
  intros H. unfold addFileExtension.
  repeat match goal with
         | |- context [if ?b then _ else _] => destruct b
         end; auto using set_add_NoDup.
Qed.

Lemma extensions_In (ids s : list string) (e : string) :
  In e (fold_left addFileExtension ids s) <->
  In e s \/ exists id, In id ids /\ contributes id e.
Proof.
  revert s. induction ids as [|id ids IH]; intros s; simpl.
  - split; [auto | intros [H | [id [[] _]]]; exact H].
  - rewrite IH, addFileExtension_In. split.
    + intros [[H | H] | [id' [Hin Hc]]]; eauto.
    + intros [H | [id' [[-> | Hin] Hc]]]; eauto.
Qed.

Lemma extensions_NoDup (ids s : list string) :
  NoDup s -> NoDup (fold_left addFileExtension ids s).
Proof.
  revert s. induction ids as [|id ids IH]; intros s H; simpl; [assumption|].
  apply IH. now apply addFileExtension_NoDup.
Qed.

(** C8: [getEnabledFileExtensions] yields bib, md, tex for [true], nothing
    for [false], and for a list of code language ids exactly the extensions
    of the listed languages (bibtex gives bib, latex and rsweave give tex,
    markdown gives md); the result has no duplicate and is in increasing
    order of strings. *)
Theorem getEnabledFileExtensions_spec :
  getEnabledFileExtensions (EnabledBool true) = ["bib"; "md"; "tex"] /\
  getEnabledFileExtensions (EnabledBool false) = [] /\
  (forall (ids : list string) (e : string),
      In e (getEnabledFileExtensions (EnabledList ids)) <->
      (e = "bib" /\ In "bibtex" ids) \/
      (e = "tex" /\ (In "latex" ids \/ In "rsweave" ids)) \/
      (e = "md" /\ In "markdown" ids)) /\
  (forall enabled : EnabledSetting,
      NoDup (getEnabledFileExtensions enabled) /\
      StronglySorted (fun a b => (a <? b) = true) (getEnabledFileExtensions enabled)).
Proof.
  split; [reflexivity|]. split; [reflexivity|]. split.
  - intros ids e. unfold getEnabledFileExtensions, JS.sortStrings.
    rewrite sort_In. simpl. rewrite extensions_In. unfold contributes. split.
    + intros [[] | [id [Hin [[-> ->] | [[[-> | ->] ->] | [-> ->]]]]]]; auto.
    + intros [[-> H] | [[-> [H | H]] | [-> H]]]; right; eexists; (split; [exact H|]); auto.
  - intros enabled.
    assert (Hnd : NoDup (fold_left addFileExtension (enabledCodeLanguageIds enabled) [])).
    { apply extensions_NoDup. constructor. }
    split.
    + now apply sort_NoDup.
    + now apply sortStrings_sorted.
Qed.

(** ** The batch checker *)

Lemma app_split_at {A : Type} (l1 l2 pre post : list A) (e : A) :
  l1 ++ l2 = pre ++ e :: post ->
  (exists post1, l1 = pre ++ e :: post1 /\ post = post1 ++ l2) \/
  (exists pre2, pre = l1 ++ pre2 /\ l2 = pre2 ++ e :: post).
Proof.
  revert pre. induction l1 as [|x l1 IH]; intros pre H; simpl in H.
  - right. exists pre. auto.
  - destruct pre as [|y pre]; simpl in H; injection H as -> H.
    + left. exists l1. subst. auto.
    + destruct (IH _ H) as [[post1 [-> ->]] | [pre2 [-> ->]]].
      * left. exists post1. auto.
      * right. exists pre2. auto.
Qed.

(** Splitting a trace whose first events are known. *)
Ltac split_trace :=
  repeat match goal with
         | H : nil = ?pre ++ _ :: _ |- _ => destruct pre; discriminate H
         | H : _ :: _ = ?pre ++ _ :: _ |- _ =>
             destruct pre; simpl in H; inversion H; clear H; subst
         end.

Section BatchFacts.
Variable env : Batch.Environment.

(** One round of the loop. *)
Lemma checkLoop_cons (n i : nat) (u : Uri) (uris : list Uri) (t : list Batch.Event) :
  Batch.checkLoop env n i (u :: uris) t =
  let t1 := t ++ [Batch.UpdateTask i n
                    (Batch.checkingDocumentN (i + 1) n (Batch.basename env (fsPath u)))] in
  let args := Batch.mkArgs (uriToString u) None None in
  let r := Batch.sendRequest env t1 args in
  if Batch.isCancellationRequested env t1 then (Some true, t1)
  else if negb (Batch.languageClient env)
  then (Some false, t1 ++ [Batch.ShowErrorMessage Batch.ltexNotInitialized])
  else if Batch.success r
  then Batch.checkLoop env n (S i) uris (t1 ++ [Batch.SendRequest args r])
  else (Some false,
        t1 ++ [Batch.SendRequest args r;
               Batch.ShowErrorMessage
                 (Batch.couldNotCheckDocument (fsPath u) (Batch.errorMessage r))]).
Proof.
  simpl. unfold Batch.checkDocument.
  destruct (Batch.isCancellationRequested env _); [reflexivity|].
  destruct (Batch.languageClient env); simpl; [|reflexivity].
  destruct (Batch.success _); simpl; [reflexivity|].
  now rewrite <- app_assoc.
Qed.

(** What the loop adds to the trace: a request answered with a failure
    ends the loop with [false], a set token at a check point ends it with
    [true]; nothing follows but the error message of the failure. *)
Lemma checkLoop_ends (uris : list Uri) :
  forall (n i : nat) (t : list Batch.Event),
  exists ext,
    snd (Batch.checkLoop env n i uris t) = t ++ ext /\
    (forall pre args r post,
        ext = pre ++ Batch.SendRequest args r :: post ->
        Batch.success r = false ->
        fst (Batch.checkLoop env n i uris t) = Some false /\
        exists u, In u uris /\
          post = [Batch.ShowErrorMessage
                    (Batch.couldNotCheckDocument (fsPath u) (Batch.errorMessage r))]) /\
    (forall pre e post,
        ext = pre ++ e :: post ->
        checkPoint e = true ->
        Batch.isCancellationRequested env (t ++ pre ++ [e]) = true ->
        fst (Batch.checkLoop env n i uris t) = Some true /\ post = []).
Proof.
  induction uris as [|u uris IH]; intros n i t.
  - exists []. simpl. rewrite app_nil_r. repeat split; intros; split_trace.
  - rewrite checkLoop_cons. cbv zeta.
    set (r1 := Batch.sendRequest env _ _).
    destruct (Batch.isCancellationRequested env (t ++ [_])) eqn:Hc.
    { eexists [_]. simpl. split; [reflexivity|].
      split; intros; split_trace; auto; discriminate. }
    destruct (Batch.languageClient env); simpl.
    2:{ eexists [_; _]. rewrite <- app_assoc. simpl. split; [reflexivity|].
        split; intros; split_trace; simpl in *; congruence. }
    destruct (Batch.success r1) eqn:Hs.
    + destruct (IH n (S i) ((t ++ [Batch.UpdateTask i n
                 (Batch.checkingDocumentN (i + 1) n (Batch.basename env (fsPath u)))])
                            ++ [Batch.SendRequest (Batch.mkArgs (uriToString u) None None) r1]))
        as [ext [Ht [Hf Hcp]]].
      exists (Batch.UpdateTask i n
                (Batch.checkingDocumentN (i + 1) n (Batch.basename env (fsPath u)))
              :: Batch.SendRequest (Batch.mkArgs (uriToString u) None None) r1 :: ext).
      split; [rewrite Ht, <- !app_assoc; reflexivity|]. split.
      * intros pre args r post H Hr. split_trace; [congruence|].
        destruct (Hf _ _ _ _ eq_refl Hr) as [Hres [u' [Hin Hp]]].
        split; [assumption|]. exists u'. simpl. auto.
      * intros pre e post H He Hcan. split_trace; try discriminate.
        -- simpl in Hcan. congruence.
        -- apply (Hcp _ _ _ eq_refl He).
           rewrite <- Hcan, <- !app_assoc. reflexivity.
    + eexists [_; _; _]. rewrite <- app_assoc. simpl. split; [reflexivity|]. split.
      * intros pre args r post H Hr. split_trace.
        split; [reflexivity|]. exists u. simpl. auto.
      * intros pre e post H He Hcan. split_trace; try discriminate.
        simpl in Hcan. congruence.
Qed.

Lemma requested_app (t1 t2 : list Batch.Event) :
  Batch.requested (t1 ++ t2) = Batch.requested t1 ++ Batch.requested t2.
Proof.
  induction t1 as [|e t1 IH]; simpl; [reflexivity|].
  destruct e; simpl; rewrite ?IH; reflexivity.
Qed.

(** The requests of the loop go to the first documents of the list, in its
    order. *)
Lemma checkLoop_requested (uris : list Uri) :
  forall (n i : nat) (t : list Batch.Event),
  exists ext k,
    snd (Batch.checkLoop env n i uris t) = t ++ ext /\
    Batch.requested ext = map uriToString (firstn k uris).
Proof.
  induction uris as [|u uris IH]; intros n i t.
  - exists [], 0. simpl. now rewrite app_nil_r.
  - rewrite checkLoop_cons. cbv zeta.
    set (r1 := Batch.sendRequest env _ _).
    destruct (Batch.isCancellationRequested env (t ++ [_])).
    { eexists [_], 0. split; reflexivity. }
    destruct (Batch.languageClient env); simpl.
    2:{ eexists [_; _], 0. rewrite <- app_assoc. split; reflexivity. }
    destruct (Batch.success r1).
    + match goal with
      | |- context [Batch.checkLoop env n (S i) uris ?t'] =>
          destruct (IH n (S i) t') as [ext [k [Ht Hr]]]
      end.
      eexists (_ :: _ :: ext), (S k). rewrite Ht, <- !app_assoc. simpl.
      split; [reflexivity|]. now rewrite Hr.
    + eexists [_; _; _], 1. rewrite <- app_assoc. split; reflexivity.
Qed.

(** With a server that is there, no cancellation and no failure, the loop
    runs to its end and requests every document. *)
Lemma checkLoop_all (uris : list Uri) :
  Batch.languageClient env = true ->
  (forall t, Batch.isCancellationRequested env t = false) ->
  (forall t args, Batch.success (Batch.sendRequest env t args) = true) ->
  forall (n i : nat) (t : list Batch.Event),
  exists ext,
    Batch.checkLoop env n i uris t = (None, t ++ ext) /\
    Batch.requested ext = map uriToString uris.
Proof.
  intros Hclient Hcancel Hsuccess.
  induction uris as [|u uris IH]; intros n i t.
  - exists []. simpl. now rewrite app_nil_r.
  - rewrite checkLoop_cons. cbv zeta. rewrite Hcancel, Hclient, Hsuccess. simpl.
    match goal with
    | |- context [Batch.checkLoop env n (S i) uris ?t'] =>
        destruct (IH n (S i) t') as [ext [Ht Hr]]
    end.
    eexists (_ :: _ :: ext). rewrite Ht, <- !app_assoc. simpl.
    split; [reflexivity|]. now rewrite Hr.
Qed.

(** The batch checker in terms of its loop. *)
Lemma checkAll_unfold (t : list Batch.Event) :
  Batch.checkAllDocumentsInWorkspace env t =
  if negb (Batch.languageClient env)
  then (false, t ++ [Batch.ShowErrorMessage Batch.ltexNotInitialized])
  else if Batch.isCancellationRequested env
            (t ++ [Batch.StartTask 10 Batch.findingAllDocumentsInWorkspace])
  then (true, t ++ [Batch.StartTask 10 Batch.findingAllDocumentsInWorkspace])
  else if (List.length (getEnabledFileExtensions (Batch.enabled env)) =? 0)%nat
  then (true, t ++ [Batch.StartTask 10 Batch.findingAllDocumentsInWorkspace])
  else
    let uris := sortedDocuments env t in
    let n := List.length uris in
    match Batch.checkLoop env n 0 uris (t ++ discoveryEvents env t) with
    | (Some result, t') => (result, t')
    | (None, t') =>
        if (0 <? n)%nat then (true, t' ++ [Batch.FinishTask])
        else (false,
              t' ++ [Batch.FinishTask;
                     Batch.ShowErrorMessage
                       (if Batch.workspaceFolders env
                        then Batch.couldNotCheckDocumentsAsNoDocumentsWereFound
                        else Batch.couldNotCheckDocumentsAsNoFoldersWereOpened)])
    end.
Proof.
  unfold Batch.checkAllDocumentsInWorkspace, sortedDocuments, discoveryEvents,
    discovered, searchPattern.
  destruct (negb _); [reflexivity|].
  destruct (Batch.isCancellationRequested env _); [reflexivity|].
  destruct (_ =? 0)%nat; [reflexivity|].
  cbv zeta. rewrite <- !app_assoc. simpl.
  destruct (Batch.checkLoop _ _ _ _ _) as [[b|] t']; [reflexivity|].
  destruct (0 <? _)%nat; [reflexivity|]. now rewrite <- app_assoc.
Qed.

(** The requests of a run go to the first documents of the sorted list, in
    its order. *)
Lemma checkAll_requested (t : list Batch.Event) :
  exists ext k,
    snd (Batch.checkAllDocumentsInWorkspace env t) = t ++ ext /\
    Batch.requested ext = map uriToString (firstn k (sortedDocuments env t)).
Proof.
  rewrite checkAll_unfold.
  destruct (negb _); [eexists [_], 0; split; reflexivity|].
  destruct (Batch.isCancellationRequested env _); [eexists [_], 0; split; reflexivity|].
  destruct (_ =? 0)%nat; [eexists [_], 0; split; reflexivity|].
  cbv zeta.
  destruct (checkLoop_requested (sortedDocuments env t)
              (List.length (sortedDocuments env t)) 0 (t ++ discoveryEvents env t))
    as [ext [k [Ht Hr]]].
  destruct (Batch.checkLoop env _ 0 _ _) as [[result|] t']; simpl in Ht; subst t'.
  - exists (discoveryEvents env t ++ ext), k. simpl.
    rewrite <- app_assoc. split; [reflexivity|]. exact Hr.
  - destruct (0 <? _)%nat; simpl.
    + exists (discoveryEvents env t ++ ext ++ [Batch.FinishTask]), k.
      rewrite <- !app_assoc. split; [reflexivity|].
      simpl. rewrite requested_app, Hr. simpl. apply app_nil_r.
    + eexists (discoveryEvents env t ++ ext ++ [_; _]), k.
      rewrite <- !app_assoc. split; [reflexivity|].
      simpl. rewrite requested_app, Hr. simpl. apply app_nil_r.
Qed.

End BatchFacts.

(** C1: when a check request of the batch is answered with a failure, the
    batch checker returns [false] at once: after that request the trace
    holds the error message of the failed check and nothing else, so no
    request is sent for a later document.  The requests up to the failed
    one went to the first documents of the sorted list, in its order. *)
Theorem checkAll_fail_fast (env : Batch.Environment) (t0 pre post : list Batch.Event)
    (args : Batch.CheckArgs) (r : Batch.CheckResult) (b : bool) :
  Batch.checkAllDocumentsInWorkspace env t0
    = (b, t0 ++ pre ++ Batch.SendRequest args r :: post) ->
  Batch.success r = false ->
  b = false /\
  Batch.requested post = [] /\
  (exists u, In u (sortedDocuments env t0) /\
     post = [Batch.ShowErrorMessage
               (Batch.couldNotCheckDocument (fsPath u) (Batch.errorMessage r))]) /\
  (exists k, Batch.requested pre ++ [Batch.uri args]
             = map uriToString (firstn k (sortedDocuments env t0))).
Proof.
  intros H Hr.
  assert (Hmain : b = false /\ exists u, In u (sortedDocuments env t0) /\
            post = [Batch.ShowErrorMessage
                      (Batch.couldNotCheckDocument (fsPath u) (Batch.errorMessage r))]);
    [|destruct Hmain as [-> [u [Hu ->]]]; repeat split; eauto;
      destruct (checkAll_requested env t0) as [ext [k [Ht Hk]]];
      rewrite H in Ht; simpl in Ht; apply app_inv_head in Ht; subst ext;
      exists k; rewrite <- Hk, requested_app; simpl; reflexivity].
  rewrite checkAll_unfold in H.
  destruct (negb _).
  { injection H as _ H. apply app_inv_head in H. split_trace. }
  destruct (Batch.isCancellationRequested env _).
  { injection H as _ H. apply app_inv_head in H. split_trace. }
  destruct (_ =? 0)%nat.
  { injection H as _ H. apply app_inv_head in H. split_trace. }
  cbv zeta in H.
  destruct (checkLoop_ends env (sortedDocuments env t0)
              (List.length (sortedDocuments env t0)) 0 (t0 ++ discoveryEvents env t0))
    as [ext [Ht [Hf _]]].
  destruct (Batch.checkLoop env _ 0 _ _) as [res t'].
  simpl in Ht, Hf. subst t'.
  assert (Hin : forall tail, (forall p a x q, tail <> p ++ Batch.SendRequest a x :: q) ->
                 (t0 ++ discoveryEvents env t0) ++ ext ++ tail
                 = t0 ++ pre ++ Batch.SendRequest args r :: post ->
                 res = Some false /\ exists post1, post = post1 ++ tail /\
                   exists u, In u (sortedDocuments env t0) /\
                     post1 = [Batch.ShowErrorMessage
                       (Batch.couldNotCheckDocument (fsPath u) (Batch.errorMessage r))]).
  { intros tail Htail E. rewrite <- app_assoc in E. apply app_inv_head in E.
    unfold discoveryEvents in E. simpl in E. split_trace.
    match goal with
    | E' : ext ++ tail = _ ++ _ :: _ |- _ =>
        apply app_split_at in E' as [[post1 [-> ->]] | [pre2 [_ E']]];
          [|now apply Htail in E']
    end.
    destruct (Hf _ _ _ _ eq_refl Hr) as [Hres Hu]. eauto. }
  destruct res as [result|].
  - injection H as -> H. rewrite <- (app_nil_r ext), app_assoc in H.
    rewrite <- app_assoc in H.
    destruct (Hin [] (fun p a x q E => app_cons_not_nil _ _ _ E) H)
      as [Hres [post1 [-> [u [Hu ->]]]]].
    injection Hres as ->. split; [reflexivity|].
    exists u. auto.
  - assert (Hnone : forall tail,
               (forall p a x q, tail <> p ++ Batch.SendRequest a x :: q) ->
               (t0 ++ discoveryEvents env t0) ++ ext ++ tail
               <> t0 ++ pre ++ Batch.SendRequest args r :: post).
    { intros tail Htail E. now destruct (Hin tail Htail E). }
    exfalso. destruct (0 <? _)%nat; injection H as _ H; rewrite <- app_assoc in H;
      revert H; apply Hnone; intros p a x q E; split_trace.
Qed.

(** C6, as the code has it: when the token is set at a check point of the
    run (after the discovery task is started, or after the progress of a
    document is reported), the batch checker returns [true] and does nothing
    more; and when the documents have been found, there is at least one, and
    the token is set before the first check, it returns [true] without
    a single request. *)
Theorem checkAll_cancellation (env : Batch.Environment) (t0 : list Batch.Event) :
  (forall (b : bool) (pre post : list Batch.Event) (e : Batch.Event),
      Batch.checkAllDocumentsInWorkspace env t0 = (b, t0 ++ pre ++ e :: post) ->
      checkPoint e = true ->
      Batch.isCancellationRequested env (t0 ++ pre ++ [e]) = true ->
      b = true /\ post = []) /\
  (forall (u : Uri) (uris : list Uri),
      Batch.languageClient env = true ->
      getEnabledFileExtensions (Batch.enabled env) <> [] ->
      Batch.isCancellationRequested env
        (t0 ++ [Batch.StartTask 10 Batch.findingAllDocumentsInWorkspace]) = false ->
      sortedDocuments env t0 = u :: uris ->
      let first := Batch.UpdateTask 0 (S (List.length uris))
                     (Batch.checkingDocumentN 1 (S (List.length uris))
                        (Batch.basename env (fsPath u))) in
      Batch.isCancellationRequested env (t0 ++ discoveryEvents env t0 ++ [first]) = true ->
      Batch.checkAllDocumentsInWorkspace env t0
        = (true, t0 ++ discoveryEvents env t0 ++ [first]) /\
      Batch.requested (discoveryEvents env t0 ++ [first]) = []).
Proof.
  split.
  - intros b pre post e H He Hcan. rewrite checkAll_unfold in H.
    destruct (negb _).
    { injection H as _ H. apply app_inv_head in H. split_trace; discriminate. }
    destruct (Batch.isCancellationRequested env (t0 ++ [_])) eqn:Hc.
    { injection H as <- H. apply app_inv_head in H. split_trace; auto. }
    destruct (_ =? 0)%nat.
    { injection H as _ H. apply app_inv_head in H. split_trace.
      simpl in Hcan. congruence. }
    cbv zeta in H.
    destruct (checkLoop_ends env (sortedDocuments env t0)
                (List.length (sortedDocuments env t0)) 0 (t0 ++ discoveryEvents env t0))
      as [ext [Ht [_ Hcp]]].
    destruct (Batch.checkLoop env _ 0 _ _) as [res t'].
    simpl in Ht, Hcp. subst t'.
    assert (Hin : forall tail, Forall (fun x => checkPoint x = false) tail ->
                   (t0 ++ discoveryEvents env t0) ++ ext ++ tail
                   = t0 ++ pre ++ e :: post ->
                   res = Some true /\ post = tail).
    { intros tail Htail E. rewrite <- app_assoc in E. apply app_inv_head in E.
      unfold discoveryEvents in E. simpl in E. split_trace; try discriminate.
      { simpl in Hcan. congruence. }
      match goal with
      | E' : ext ++ tail = _ ++ _ :: _ |- _ =>
          apply app_split_at in E' as [[post1 [-> ->]] | [pre2 [_ ->]]]
      end.
      - refine ((fun P => conj (proj1 P) _) (Hcp _ _ _ eq_refl He _)).
        + destruct P as [_ ->]. reflexivity.
        + rewrite <- Hcan, <- !app_assoc. reflexivity.
      - apply Forall_app in Htail as [_ Htail]. inversion Htail; congruence. }
    destruct res as [result|].
    + injection H as -> H. rewrite <- (app_nil_r ext), app_assoc in H.
      rewrite <- app_assoc in H.
      destruct (Hin [] (Forall_nil _) H) as [Hres ->]. now injection Hres as ->.
    + exfalso.
      destruct (0 <? _)%nat; injection H as _ H; rewrite <- app_assoc in H;
        apply Hin in H; try (now destruct H); repeat constructor.
  - intros u uris Hclient Hext Hc Hsorted first Hcan.
    split; [|reflexivity].
    rewrite checkAll_unfold, Hclient, Hc. simpl.
    destruct (getEnabledFileExtensions (Batch.enabled env)) eqn:E; [congruence|].
    simpl. rewrite Hsorted, checkLoop_cons. cbv zeta. simpl List.length.
    rewrite <- !app_assoc. change (0 + 1) with 1. fold first. now rewrite Hcan.
Qed.

(** *** The order of the documents *)

Section Stability.
Context {A : Type}.
Variable le : A -> A -> bool.
Variable p : A -> bool.

(** Elements that the comparison does not tell apart keep their order. *)
Hypothesis le_class : forall x y, p x = true -> p y = true -> le x y = true.

Lemma insert_filter (x : A) (l : list A) :
  filter p (JS.insert le x l) = filter p (x :: l).
Proof.
  induction l as [|y l IH]; [reflexivity|].
  simpl JS.insert. destruct (le x y) eqn:E; [reflexivity|].
  simpl in *. rewrite IH.
  destruct (p x) eqn:Hx, (p y) eqn:Hy; try reflexivity.
  rewrite (le_class x y Hx Hy) in E. discriminate.
Qed.

Lemma sort_filter (l : list A) : filter p (JS.sort le l) = filter p l.
Proof.
  induction l as [|x l IH]; [reflexivity|].
  simpl JS.sort. rewrite insert_filter. simpl. now rewrite IH.
Qed.
End Stability.

Lemma StronglySorted_impl {A : Type} (R S : A -> A -> Prop) (l : list A) :
  (forall a b, R a b -> S a b) -> StronglySorted R l -> StronglySorted S l.
Proof.
  intros HRS. induction 1 as [|x l Hs IH Hx]; constructor; [assumption|].
  eapply Forall_impl; [|exact Hx]. auto.
Qed.

Section Order.
Variable env : Batch.Environment.
Hypothesis compare_consistent : consistent (Batch.localeCompare env).

Lemma comparePaths_total (a b : Uri) :
  Batch.comparePaths env a b = true \/ Batch.comparePaths env b a = true.
Proof.
  unfold Batch.comparePaths. destruct compare_consistent as [Hanti _].
  rewrite !Z.leb_le.
  destruct (Z_le_gt_dec (Batch.localeCompare env (fsPath a) (fsPath b)) 0) as [H|H];
    [now left|right].
  apply Z.gt_lt, Hanti in H. lia.
Qed.

Lemma comparePaths_trans (a b c : Uri) :
  Batch.comparePaths env a b = true -> Batch.comparePaths env b c = true ->
  Batch.comparePaths env a c = true.
Proof.
  unfold Batch.comparePaths. destruct compare_consistent as [_ Htrans].
  rewrite !Z.leb_le. apply Htrans.
Qed.

Lemma compare_zero_sym (a b : string) :
  Batch.localeCompare env a b = 0%Z -> Batch.localeCompare env b a = 0%Z.
Proof.
  destruct compare_consistent as [Hanti _]. intros H.
  pose proof (Hanti a b) as H1. pose proof (Hanti b a) as H2. lia.
Qed.

Lemma sortedDocuments_sorted (t : list Batch.Event) :
  StronglySorted
    (fun l r => (Batch.localeCompare env (fsPath l) (fsPath r) <= 0)%Z)
    (sortedDocuments env t).
Proof.
  apply StronglySorted_impl with (R := fun a b => Batch.comparePaths env a b = true).
  - intros a b. unfold Batch.comparePaths. now rewrite Z.leb_le.
  - apply sort_sorted; [apply comparePaths_total | apply comparePaths_trans].
Qed.

Lemma sortedDocuments_stable (t : list Batch.Event) (u : Uri) :
  let same v := (Batch.localeCompare env (fsPath v) (fsPath u) =? 0)%Z in
  filter same (sortedDocuments env t) = filter same (discovered env t).
Proof.
  intros same. apply sort_filter. unfold same. intros x y Hx Hy.
  apply Z.eqb_eq in Hx, Hy. apply compare_zero_sym in Hy.
  unfold Batch.comparePaths. apply Z.leb_le.
  destruct compare_consistent as [_ Htrans]. apply Htrans with (fsPath u); lia.
Qed.

Lemma sort_three (a b c : Uri) :
  (Batch.localeCompare env (fsPath a) (fsPath b) < 0)%Z ->
  (Batch.localeCompare env (fsPath b) (fsPath c) < 0)%Z ->
  JS.sort (Batch.comparePaths env) [b; a; c] = [a; b; c].
Proof.
  intros Hab Hbc. destruct compare_consistent as [Hanti Htrans].
  assert (Hac : (Batch.localeCompare env (fsPath a) (fsPath c) <= 0)%Z)
    by (apply Htrans with (fsPath b); lia).
  apply Hanti in Hab.
  simpl. unfold Batch.comparePaths.
  destruct (Z.leb_spec (Batch.localeCompare env (fsPath a) (fsPath c)) 0); [|lia].
  simpl.
  destruct (Z.leb_spec (Batch.localeCompare env (fsPath b) (fsPath a)) 0); [lia|].
  destruct (Z.leb_spec (Batch.localeCompare env (fsPath b) (fsPath c)) 0); [|lia].
  reflexivity.
Qed.

End Order.

(** C9: the documents are checked one after the other in the order of the
    stable sort of their paths by [localeCompare]: the sorted list is a
    permutation of the documents found, in increasing order, with documents
    that compare equal in the order in which they were found; the requests
    of a run go to the first documents of that list, in its order, and to all
    of them when no check fails and the run is not cancelled.  Three
    documents found as b, a, c with a before b before c are checked
    as a, b, c. *)
Theorem checkAll_order (env : Batch.Environment) (t0 : list Batch.Event) :
  Batch.languageClient env = true ->
  getEnabledFileExtensions (Batch.enabled env) <> [] ->
  consistent (Batch.localeCompare env) ->
  Permutation (discovered env t0) (sortedDocuments env t0) /\
  StronglySorted
    (fun l r => (Batch.localeCompare env (fsPath l) (fsPath r) <= 0)%Z)
    (sortedDocuments env t0) /\
  (forall u,
      let same v := (Batch.localeCompare env (fsPath v) (fsPath u) =? 0)%Z in
      filter same (sortedDocuments env t0) = filter same (discovered env t0)) /\
  (exists ext k,
      snd (Batch.checkAllDocumentsInWorkspace env t0) = t0 ++ ext /\
      Batch.requested ext = map uriToString (firstn k (sortedDocuments env t0))) /\
  ((forall t, Batch.isCancellationRequested env t = false) ->
   (forall t args, Batch.success (Batch.sendRequest env t args) = true) ->
   exists ext,
     snd (Batch.checkAllDocumentsInWorkspace env t0) = t0 ++ ext /\
     Batch.requested ext = map uriToString (sortedDocuments env t0)) /\
  (forall a b c,
      discovered env t0 = [b; a; c] ->
      (Batch.localeCompare env (fsPath a) (fsPath b) < 0)%Z ->
      (Batch.localeCompare env (fsPath b) (fsPath c) < 0)%Z ->
      sortedDocuments env t0 = [a; b; c]).
Proof.
  intros Hclient Hext Hcons.
  split; [apply sort_perm|].
  split; [now apply sortedDocuments_sorted|].
  split; [intros u; now apply sortedDocuments_stable|].
  assert (Hlen : (List.length (getEnabledFileExtensions (Batch.enabled env)) =? 0)%nat = false).
  { destruct (getEnabledFileExtensions _); [congruence | reflexivity]. }
  split; [|split].
  - apply checkAll_requested.
  - intros Hcancel Hsuccess.
    rewrite checkAll_unfold, Hclient, Hlen, Hcancel. simpl.
    destruct (checkLoop_all env (sortedDocuments env t0) Hclient Hcancel Hsuccess
                (List.length (sortedDocuments env t0)) 0 (t0 ++ discoveryEvents env t0))
      as [ext [Ht Hr]].
    rewrite Ht. destruct (0 <? _)%nat; simpl.
    + exists (discoveryEvents env t0 ++ ext ++ [Batch.FinishTask]).
      rewrite <- !app_assoc. split; [reflexivity|].
      simpl. rewrite requested_app, Hr. simpl. apply app_nil_r.
    + eexists (discoveryEvents env t0 ++ ext ++ [_; _]).
      rewrite <- !app_assoc. split; [reflexivity|].
      simpl. rewrite requested_app, Hr. simpl. apply app_nil_r.
  - intros a b c Hfound Hab Hbc. unfold sortedDocuments. rewrite Hfound.
    now apply sort_three.
Qed.

(** ** Language-specific settings *)

Section SettingsFacts.
Import Settings.
Variable cleanUp : list string -> list string.
Variable u : Uri.
Variable settingName : string.
Variable value : LanguageSpecificSettingValue.


(** One round of the loop over the targets. *)
Lemma updateLoop_cons (n i : nat) (scope : ConfigurationTarget)
    (scopes : list ConfigurationTarget) (w : World) :
  updateLoop settingName value n i (scope :: scopes) w =
  match updateRejection w scope with
  | None =>
      (Normal tt,
       mkWorld (configurationTarget w)
               (fun name => if name =? settingName then value else settings w name)
               (updateRejection w) (externalFilePath w) (fileContents w)
               (trace w ++ [Update settingName value scope None]))
  | Some cause =>
      let w1 := log (Update settingName value scope (Some cause)) w in
      let w2 := if (i =? n - 1)%nat
                then log (LoggerError (couldNotSetConfiguration settingName) (Some cause)) w1
                else w1 in
      updateLoop settingName value n (S i) scopes w2
  end.
Proof.
  simpl. unfold bind, tryCatch, update, ret, Logger_error.
  destruct (updateRejection w scope); [|reflexivity].
  destruct (i =? n - 1)%nat; reflexivity.
Qed.

(** The first target that accepts the update ends the loop: the targets
    before it were tried in order and nothing is logged. *)
Lemma updateLoop_accepted (pre post : list ConfigurationTarget) (s : ConfigurationTarget) :
  forall (n i : nat) (w : World),
    i + List.length (pre ++ s :: post) = n ->
    Forall (rejects w) pre ->
    updateRejection w s = None ->
    exists w',
      updateLoop settingName value n i (pre ++ s :: post) w = (Normal tt, w') /\
      trace w' = trace w ++ map (attemptAt settingName value w) (pre ++ [s]) /\
      settings w' = (fun name => if name =? settingName then value else settings w name) /\
      fileContents w' = fileContents w /\
      sameInputs w w'.
Proof.
  induction pre as [|p pre IH]; intros n i w Hn Hpre Hs.
  - simpl app. rewrite updateLoop_cons, Hs.
    eexists. split; [reflexivity|]. unfold attemptAt, sameInputs. simpl. rewrite Hs.
    repeat split; reflexivity.
  - apply Forall_cons_iff in Hpre as [Hp Hpre].
    unfold rejects in Hp. destruct (updateRejection w p) as [cause|] eqn:Ep; [|congruence].
    simpl app. rewrite updateLoop_cons, Ep. cbv zeta.
    assert (Hi : (i =? n - 1)%nat = false).
    { apply Nat.eqb_neq. simpl in Hn. rewrite length_app in Hn. simpl in Hn. lia. }
    rewrite Hi.
    destruct (IH n (S i) (log (Update settingName value p (Some cause)) w))
      as [w' [Hrun [Ht [Hset [Hf Hsame]]]]].
    + simpl in Hn. lia.
    + exact Hpre.
    + exact Hs.
    + exists w'. split; [exact Hrun|]. simpl in Ht, Hset, Hf.
      unfold sameInputs in *. simpl in Hsame.
      split; [|auto]. rewrite Ht, <- app_assoc. unfold attemptAt. simpl.
      now rewrite Ep.
Qed.

(** When every target rejects the update, all were tried in order and the
    rejection of the last one is logged. *)
Lemma updateLoop_rejected (scopes : list ConfigurationTarget) :
  forall (n i : nat) (w : World),
    i + List.length scopes = n ->
    scopes <> [] ->
    Forall (rejects w) scopes ->
    exists w',
      updateLoop settingName value n i scopes w = (Normal tt, w') /\
      trace w' = trace w ++ map (attemptAt settingName value w) scopes
                   ++ [LoggerError (couldNotSetConfiguration settingName)
                         (updateRejection w (last scopes Global))] /\
      settings w' = settings w /\
      fileContents w' = fileContents w /\
      sameInputs w w'.
Proof.
  induction scopes as [|p scopes IH]; intros n i w Hn Hne Hall; [congruence|].
  apply Forall_cons_iff in Hall as [Hp Hall].
  unfold rejects in Hp. destruct (updateRejection w p) as [cause|] eqn:Ep; [|congruence].
  rewrite updateLoop_cons, Ep. cbv zeta.
  destruct scopes as [|q scopes].
  - simpl in Hn. replace (i =? n - 1)%nat with true by (symmetry; apply Nat.eqb_eq; lia).
    simpl. unfold ret. eexists. split; [reflexivity|].
    unfold attemptAt, sameInputs. simpl. rewrite Ep, <- app_assoc.
    repeat split; reflexivity.
  - replace (i =? n - 1)%nat with false
      by (symmetry; apply Nat.eqb_neq; simpl in Hn; lia).
    destruct (IH n (S i) (log (Update settingName value p (Some cause)) w))
      as [w' [Hrun [Ht [Hset [Hf Hsame]]]]].
    + simpl in *. lia.
    + discriminate.
    + exact Hall.
    + exists w'. split; [exact Hrun|]. simpl in Ht, Hset, Hf.
      unfold sameInputs in *. simpl in Hsame.
      split; [|auto]. rewrite Ht, <- app_assoc. unfold attemptAt. simpl.
      now rewrite Ep.
Qed.

(** Either every target rejects, or there is a first one that accepts. *)
Lemma first_accepting (w : World) (scopes : list ConfigurationTarget) :
  Forall (rejects w) scopes \/
  exists pre s post,
    scopes = pre ++ s :: post /\ Forall (rejects w) pre /\ updateRejection w s = None.
Proof.
  induction scopes as [|p scopes IH]; [left; constructor|].
  destruct (updateRejection w p) as [cause|] eqn:Ep.
  - destruct IH as [Hall | [pre [s [post [-> [Hpre Hs]]]]]].
    + left. constructor; [unfold rejects; congruence | assumption].
    + right. exists (p :: pre), s, post. repeat split; [|assumption].
      constructor; [unfold rejects; congruence | assumption].
  - right. exists [], p, scopes. repeat split; [constructor | assumption].
Qed.

End SettingsFacts.

Lemma first_accepting_unique (w : Settings.World)
    (pre pre' post post' : list Settings.ConfigurationTarget)
    (s s' : Settings.ConfigurationTarget) :
  pre ++ s :: post = pre' ++ s' :: post' ->
  Forall (rejects w) pre -> Settings.updateRejection w s = None ->
  Forall (rejects w) pre' -> Settings.updateRejection w s' = None ->
  pre = pre' /\ s = s'.
Proof.
  revert pre'. induction pre as [|p pre IH]; intros [|p' pre'] E Hpre Hs Hpre' Hs';
    simpl in E; injection E as -> E.
  - auto.
  - apply Forall_cons_iff in Hpre' as [Hp _]. unfold rejects in Hp. congruence.
  - apply Forall_cons_iff in Hpre as [Hp _]. unfold rejects in Hp. congruence.
  - apply Forall_cons_iff in Hpre as [_ Hpre].
    apply Forall_cons_iff in Hpre' as [_ Hpre'].
    destruct (IH _ E Hpre Hs Hpre' Hs') as [-> ->]. auto.
Qed.

(** C4: the inline path tries the update at the first target of the chain
    and, after each rejection, at the next one; the first accepted update
    ends it.  An error is logged, with the setting name and the cause of the
    last rejection, exactly when every target rejects.  The operation
    completes normally in every case. *)
Theorem internalSetting_retry (cleanUp : list string -> list string) (u : Uri)
    (settingName : string) (scopes : list Settings.ConfigurationTarget)
    (entries : Settings.LanguageSpecificSettingValue) (w : Settings.World) :
  scopes <> [] ->
  let value := fold_left (Settings.mergeLanguage cleanUp entries) (JS.keys entries)
                         (Settings.settings w settingName) in
  let attempt := attemptAt settingName value w in
  exists w' ext,
    Settings.addToLanguageSpecificSettingInternalSetting
      cleanUp u settingName scopes entries w = (Settings.Normal tt, w') /\
    Settings.trace w' = Settings.trace w ++ Settings.Get "ltex" settingName :: ext /\
    (forall pre s post,
        scopes = pre ++ s :: post ->
        Forall (rejects w) pre ->
        Settings.updateRejection w s = None ->
        ext = map attempt (pre ++ [s]) /\ Settings.settings w' settingName = value) /\
    (Forall (rejects w) scopes ->
     ext = map attempt scopes
             ++ [Settings.LoggerError (Settings.couldNotSetConfiguration settingName)
                   (Settings.updateRejection w (last scopes Settings.Global))] /\
     Settings.settings w' = Settings.settings w) /\
    ((exists m cause, In (Settings.LoggerError m cause) ext) <-> Forall (rejects w) scopes).
Proof.
  intros Hne value attempt.
  unfold Settings.addToLanguageSpecificSettingInternalSetting. fold value.
  set (w0 := Settings.log (Settings.Get "ltex" settingName) w).
  assert (Hnot : forall s, Settings.updateRejection w s = None ->
                   In s scopes -> ~ Forall (rejects w) scopes).
  { intros s Hs Hin Hall. rewrite Forall_forall in Hall. now apply (Hall s Hin). }
  destruct (first_accepting w scopes) as [Hall | [pre [s [post [E [Hpre Hs]]]]]].
  - destruct (updateLoop_rejected settingName value scopes (List.length scopes) 0 w0
                eq_refl Hne Hall) as [w' [Hrun [Ht [Hset [_ _]]]]].
    exists w'. eexists. split; [exact Hrun|].
    split; [rewrite Ht; simpl; rewrite <- app_assoc; reflexivity|].
    split; [|split].
    + intros pre s post -> _ Hs. exfalso.
      apply (Hnot s Hs); [apply in_elt | exact Hall].
    + intros _. split; [reflexivity | exact Hset].
    + split; [intros _; exact Hall|]. intros _. do 2 eexists.
      apply in_or_app. right. left. reflexivity.
  - subst scopes.
    destruct (updateLoop_accepted settingName value pre post s
                (List.length (pre ++ s :: post)) 0 w0 eq_refl Hpre Hs)
      as [w' [Hrun [Ht [Hset [_ _]]]]].
    exists w'. eexists. split; [exact Hrun|].
    split; [rewrite Ht; simpl; rewrite <- app_assoc; reflexivity|].
    split; [|split].
    + intros pre' s' post' E Hpre' Hs'.
      destruct (first_accepting_unique w _ _ _ _ _ _ E Hpre Hs Hpre' Hs') as [-> ->].
      split; [reflexivity|]. rewrite Hset. now rewrite String.eqb_refl.
    + intros Hall. exfalso. apply (Hnot s Hs); [apply in_elt | exact Hall].
    + split.
      * intros [m [cause Hin]]. apply in_map_iff in Hin as [x [Hx _]]. discriminate.
      * intros Hall. exfalso. apply (Hnot s Hs); [apply in_elt | exact Hall].
Qed.

(** *** The scope chain *)

Lemma addToLanguageSpecificSetting_unfold (cleanUp : list string -> list string)
    (u : Uri) (settingName : string) (entries : Settings.LanguageSpecificSettingValue)
    (w : Settings.World) :
  Settings.addToLanguageSpecificSetting cleanUp u settingName entries w =
  let w1 := logAll (scopeReads w settingName) w in
  let scopeString := scopeStringOf w settingName in
  match scopeString with
  | None =>
      store cleanUp u settingName entries scopeString
            [Settings.WorkspaceFolder; Settings.Workspace; Settings.Global] w1
  | Some s =>
      if JS.startsWith s "workspaceFolder"
      then store cleanUp u settingName entries scopeString
                 [Settings.WorkspaceFolder; Settings.Workspace; Settings.Global] w1
      else if JS.startsWith s "workspace"
      then store cleanUp u settingName entries scopeString
                 [Settings.Workspace; Settings.Global] w1
      else if JS.startsWith s "user" || JS.startsWith s "global"
      then store cleanUp u settingName entries scopeString [Settings.Global] w1
      else Settings.log
             (Settings.LoggerError (Settings.invalidValueForConfigurationTarget s) None) w1
  end.
Proof.
  unfold Settings.addToLanguageSpecificSetting, scopeStringOf, scopeReads,
    deprecatedAlias, Settings.getScope, store.
  simpl.
  destruct (Settings.configurationTarget w settingName) as [s|]; [reflexivity|].
  destruct (settingName =? "dictionary"); [reflexivity|].
  destruct (settingName =? "disabledRules"); [reflexivity|].
  destruct (settingName =? "hiddenFalsePositives"); reflexivity.
Qed.

Lemma prefix_cons (a c : ascii) (p s : string) :
  String.prefix (String a p) (String c s) = if ascii_dec a c then String.prefix p s else false.
Proof. reflexivity. Qed.

(** A preference for the user level is not one for the workspace. *)
Lemma startsWith_user_global (s : string) :
  JS.startsWith s "user" = true \/ JS.startsWith s "global" = true ->
  JS.startsWith s "workspace" = false /\ JS.startsWith s "workspaceFolder" = false.
Proof.
  unfold JS.startsWith. destruct s as [|c s]; [intros [H|H]; discriminate|].
  rewrite !prefix_cons.
  destruct (ascii_dec "w" c) as [<-|]; [|auto].
  destruct (ascii_dec "u" "w"); [discriminate|].
  destruct (ascii_dec "g" "w"); [discriminate|].
  intros [H|H]; discriminate.
Qed.

Lemma logAll_fields (events : list Settings.Event) (w : Settings.World) :
  Settings.trace (logAll events w) = Settings.trace w ++ events /\
  Settings.settings (logAll events w) = Settings.settings w /\
  Settings.fileContents (logAll events w) = Settings.fileContents w /\
  Settings.configurationTarget (logAll events w) = Settings.configurationTarget w /\
  Settings.updateRejection (logAll events w) = Settings.updateRejection w /\
  Settings.externalFilePath (logAll events w) = Settings.externalFilePath w.
Proof.
  revert w. induction events as [|e events IH]; intros w; simpl.
  - rewrite app_nil_r. repeat split; reflexivity.
  - destruct (IH (Settings.log e w)) as (-> & -> & -> & -> & -> & ->). simpl.
    rewrite <- app_assoc. repeat split; reflexivity.
Qed.

(** C2: the scope preference of a call is the value configured under the
    name of the setting and, when there is none, the value under its
    deprecated alias.  No preference or one that starts with workspaceFolder
    gives the chain folder, workspace, global; one that starts with workspace
    but not with workspaceFolder gives workspace, global; one that starts with
    user or global gives global alone; with any other value the call logs one
    error and writes nothing. *)
Theorem scope_chain (cleanUp : list string -> list string) (u : Uri)
    (settingName : string) (entries : Settings.LanguageSpecificSettingValue)
    (w : Settings.World) :
  let scopeString := scopeStringOf w settingName in
  let w1 := logAll (scopeReads w settingName) w in
  let run := Settings.addToLanguageSpecificSetting cleanUp u settingName entries w in
  (scopeString = None \/
   (exists s, scopeString = Some s /\ JS.startsWith s "workspaceFolder" = true) ->
   run = store cleanUp u settingName entries scopeString
               [Settings.WorkspaceFolder; Settings.Workspace; Settings.Global] w1) /\
  (forall s,
      scopeString = Some s ->
      JS.startsWith s "workspace" = true ->
      JS.startsWith s "workspaceFolder" = false ->
      run = store cleanUp u settingName entries scopeString
                  [Settings.Workspace; Settings.Global] w1) /\
  (forall s,
      scopeString = Some s ->
      JS.startsWith s "user" = true \/ JS.startsWith s "global" = true ->
      run = store cleanUp u settingName entries scopeString [Settings.Global] w1) /\
  (forall s,
      scopeString = Some s ->
      JS.startsWith s "workspaceFolder" = false ->
      JS.startsWith s "workspace" = false ->
      JS.startsWith s "user" = false ->
      JS.startsWith s "global" = false ->
      Settings.trace run
        = Settings.trace w ++ scopeReads w settingName
            ++ [Settings.LoggerError (Settings.invalidValueForConfigurationTarget s) None] /\
      filter isWrite (Settings.trace run) = filter isWrite (Settings.trace w) /\
      Settings.settings run = Settings.settings w /\
      Settings.fileContents run = Settings.fileContents w).
Proof.
  intros scopeString w1 run. subst run.
  rewrite addToLanguageSpecificSetting_unfold. cbv zeta. fold scopeString w1.
  split; [|split; [|split]].
  - intros [-> | [s [-> Hs]]]; [reflexivity|]. now rewrite Hs.
  - intros s -> Hw Hf. now rewrite Hf, Hw.
  - intros s -> Hug. destruct (startsWith_user_global s Hug) as [-> ->].
    destruct Hug as [-> | ->]; [reflexivity | now rewrite orb_true_r].
  - intros s -> -> -> -> ->. simpl. subst w1.
    destruct (logAll_fields (scopeReads w settingName) w) as (Ht & Hs & Hf & _).
    rewrite Ht, Hs, Hf, <- app_assoc. repeat split.
    rewrite !filter_app. simpl.
    destruct (Settings.configurationTarget w settingName);
      [simpl; now rewrite app_nil_r|].
    destruct (deprecatedAlias settingName); simpl; now rewrite app_nil_r.
Qed.

(** C10: when the preference configured under the name of the setting is
    the empty string, the deprecated alias is not read, and the call logs
    one error for the empty value and writes nothing. *)
Theorem empty_scope_string (cleanUp : list string -> list string) (u : Uri)
    (settingName : string) (entries : Settings.LanguageSpecificSettingValue)
    (w : Settings.World) :
  Settings.configurationTarget w settingName = Some "" ->
  let run := Settings.addToLanguageSpecificSetting cleanUp u settingName entries w in
  Settings.trace run
    = Settings.trace w
        ++ [Settings.Get "ltex.configurationTarget" settingName;
            Settings.LoggerError (Settings.invalidValueForConfigurationTarget "") None] /\
  Settings.settings run = Settings.settings w /\
  Settings.fileContents run = Settings.fileContents w.
Proof.
  intros Hempty run. subst run.
  unfold Settings.addToLanguageSpecificSetting, Settings.getScope.
  rewrite Hempty. simpl. rewrite <- app_assoc. repeat split.
Qed.

(** *** Objects and the merge of the entries *)

Lemma get_set_same {V : Type} (o : JS.object V) (k : string) (v : V) :
  JS.get (JS.set o k v) k = Some v.
Proof.
  induction o as [|[k' v'] o IH]; simpl.
  - now rewrite String.eqb_refl.
  - destruct (k' =? k) eqn:E; simpl; rewrite E; [reflexivity | exact IH].
Qed.

Lemma get_set_other {V : Type} (o : JS.object V) (k k' : string) (v : V) :
  k <> k' -> JS.get (JS.set o k v) k' = JS.get o k'.
Proof.
  intros Hne. induction o as [|[k0 v0] o IH]; simpl.
  - apply String.eqb_neq in Hne. now rewrite Hne.
  - destruct (k0 =? k) eqn:E; simpl.
    + apply String.eqb_eq in E. subst k0.
      apply String.eqb_neq in Hne. now rewrite Hne.
    + destruct (k0 =? k'); [reflexivity | exact IH].
Qed.

Section Merge.
Variable cleanUp : list string -> list string.
Variable entries : Settings.LanguageSpecificSettingValue.

Lemma merge_other (languages : list string) (language : string) :
  ~ In language languages ->
  forall settingValue,
    JS.get (fold_left (Settings.mergeLanguage cleanUp entries) languages settingValue)
           language
    = JS.get settingValue language.
Proof.
  induction languages as [|l languages IH]; intros Hnin settingValue; [reflexivity|].
  simpl. rewrite IH by (intros H; apply Hnin; now right).
  unfold Settings.mergeLanguage. apply get_set_other.
  intros ->. apply Hnin. now left.
Qed.

Lemma merge_key (languages : list string) (language : string) :
  NoDup languages -> In language languages ->
  forall settingValue,
    JS.get (fold_left (Settings.mergeLanguage cleanUp entries) languages settingValue)
           language
    = Some (cleanUp (existingEntries settingValue language
                       ++ Settings.entriesOf entries language)).
Proof.
  induction languages as [|l languages IH]; intros Hnd Hin settingValue; [destruct Hin|].
  apply NoDup_cons_iff in Hnd as [Hnin Hnd]. simpl.
  destruct (string_dec l language) as [->|Hne].
  - rewrite merge_other by assumption.
    unfold Settings.mergeLanguage. apply get_set_same.
  - destruct Hin as [->|Hin]; [congruence|].
    rewrite IH by assumption. unfold existingEntries, Settings.mergeLanguage.
    now rewrite get_set_other.
Qed.
End Merge.

(** *** The two storage paths *)

Section Paths.
Import Settings.
Variable cleanUp : list string -> list string.
Variable u : Uri.
Variable settingName : string.

(** What the loop over the targets can do for any chain: updates with the
    one value and, at most, an error; the stored setting is the old or the
    new value; the files stay. *)
Lemma updateLoop_effect (value : LanguageSpecificSettingValue)
    (scopes : list ConfigurationTarget) :
  forall (n i : nat) (w : World),
  exists w' ext,
    updateLoop settingName value n i scopes w = (Normal tt, w') /\
    trace w' = trace w ++ ext /\
    Forall (fun e => (exists target rejection,
                         e = Update settingName value target rejection)
                     \/ isWrite e = false) ext /\
    filter (fun e => match e with AppendToFile _ _ _ => true | _ => false end) ext = [] /\
    (settings w' = settings w \/
     settings w' = (fun name => if name =? settingName then value else settings w name)) /\
    fileContents w' = fileContents w /\
    externalFilePath w' = externalFilePath w /\
    updateRejection w' = updateRejection w /\
    configurationTarget w' = configurationTarget w.
Proof.
  induction scopes as [|scope scopes IH]; intros n i w.
  - exists w, []. simpl. unfold ret. rewrite app_nil_r. repeat split; auto.
  - rewrite updateLoop_cons. destruct (updateRejection w scope) as [cause|] eqn:E.
    + cbv zeta. destruct (i =? n - 1)%nat.
      * match goal with
        | |- context [updateLoop settingName value n (S i) scopes ?w1] =>
            destruct (IH n (S i) w1)
              as (w' & ext & Hrun & Ht & Hall & Happ & Hs & Hf & Hp & Hr & Hc)
        end.
        exists w'. simpl in *.
        eexists (_ :: _ :: ext). rewrite Hrun, Ht, <- !app_assoc. simpl.
        repeat split; auto. constructor; [eauto|]. constructor; [auto|assumption].
      * match goal with
        | |- context [updateLoop settingName value n (S i) scopes ?w1] =>
            destruct (IH n (S i) w1)
              as (w' & ext & Hrun & Ht & Hall & Happ & Hs & Hf & Hp & Hr & Hc)
        end.
        exists w'. simpl in *.
        eexists (_ :: ext). rewrite Hrun, Ht, <- !app_assoc. simpl.
        repeat split; auto. constructor; [eauto|assumption].
    + eexists. eexists [_]. split; [reflexivity|]. simpl.
      repeat split; auto. constructor; [eauto|constructor].
Qed.

Lemma internalSetting_effect (scopes : list ConfigurationTarget)
    (entries : LanguageSpecificSettingValue) (w : World) :
  let value := fold_left (mergeLanguage cleanUp entries) (JS.keys entries)
                         (settings w settingName) in
  exists w' ext,
    addToLanguageSpecificSettingInternalSetting cleanUp u settingName scopes entries w
      = (Normal tt, w') /\
    trace w' = trace w ++ Get "ltex" settingName :: ext /\
    Forall (fun e => (exists target rejection,
                         e = Update settingName value target rejection)
                     \/ isWrite e = false) ext /\
    filter (fun e => match e with AppendToFile _ _ _ => true | _ => false end) ext = [] /\
    (settings w' = settings w \/
     settings w' = (fun name => if name =? settingName then value else settings w name)) /\
    fileContents w' = fileContents w /\
    externalFilePath w' = externalFilePath w /\
    updateRejection w' = updateRejection w /\
    configurationTarget w' = configurationTarget w.
Proof.
  intros value. unfold addToLanguageSpecificSettingInternalSetting. fold value.
  destruct (updateLoop_effect value scopes (List.length scopes) 0
              (log (Get "ltex" settingName) w))
    as (w' & ext & Hrun & Ht & Hall & Happ & Hs & Hf & Hp & Hr & Hc).
  exists w', ext. simpl in *. rewrite Ht, <- app_assoc. repeat split; auto.
Qed.

Variable entries : LanguageSpecificSettingValue.
Variable language : string.



Lemma externalFileScopes_none (scopes : list ConfigurationTarget) :
  forall w : World,
    Forall (noFileAt w u settingName language) scopes ->
    externalFileScopes u settingName language entries scopes w
    = (false, logAll (map (lookupAt u settingName language) scopes) w).
Proof.
  induction scopes as [|p scopes IH]; intros w Hall; simpl; [reflexivity|].
  apply Forall_cons_iff in Hall as [Hp Hall]. unfold noFileAt in Hp. rewrite Hp.
  now apply IH.
Qed.

Lemma externalFileScopes_inputs (scopes : list ConfigurationTarget) :
  forall w : World,
    externalFilePath (snd (externalFileScopes u settingName language entries scopes w))
    = externalFilePath w.
Proof.
  induction scopes as [|p scopes IH]; intros w; simpl; [reflexivity|].
  destruct (externalFilePath w u settingName p language); [reflexivity|].
  now rewrite IH.
Qed.

End Paths.

(** *** Calls that are not awaited *)

Lemma world_fields (w w' : Settings.World) :
  sameInputs w w' ->
  Settings.settings w' = Settings.settings w ->
  Settings.fileContents w' = Settings.fileContents w ->
  Settings.trace w' = Settings.trace w ->
  w' = w.
Proof.
  destruct w, w'. unfold sameInputs. simpl. intros (-> & -> & ->) -> -> ->. reflexivity.
Qed.

Lemma sameInputs_refl (w : Settings.World) : sameInputs w w.
Proof. repeat split. Qed.

Lemma sameInputs_trans (w1 w2 w3 : Settings.World) :
  sameInputs w1 w2 -> sameInputs w2 w3 -> sameInputs w1 w3.
Proof. unfold sameInputs. intros (-> & -> & ->) (-> & -> & ->). repeat split. Qed.

Section Answers.
Import Settings.

Lemma settle_nil (fuel : nat) (w : World) : settle fuel [] w = ([], w).
Proof. now destruct fuel. Qed.

Lemma settle_cons (fuel : nat) (c : Suspended) (pending : list Suspended) (w : World) :
  settle (S fuel) (c :: pending) w
  = settle fuel (pending ++ suspendedAgain (fst (resume c w))) (snd (resume c w)).
Proof. simpl. now destruct (resume c w). Qed.

Lemma answersAwaited_app (p q : list Suspended) :
  answersAwaited (p ++ q) = answersAwaited p + answersAwaited q.
Proof. unfold answersAwaited. now rewrite map_app, list_sum_app. Qed.

(** A call that goes on and is suspended again has one target less
    before it. *)
Lemma resume_awaited (c : Suspended) (w : World) :
  answersAwaited (suspendedAgain (fst (resume c w))) <= List.length (remaining c).
Proof.
  unfold resume, answersAwaited.
  destruct (updateRejection w (awaited c)) as [cause|]; [|simpl; lia].
  destruct (remaining c) as [|scope scopes']; simpl; lia.
Qed.

(** The fuel that the handler gives is enough: every suspended call comes
    to its end. *)
Lemma settle_enough (fuel : nat) :
  forall (pending : list Suspended) (w : World),
    answersAwaited pending <= fuel -> fst (settle fuel pending w) = [].
Proof.
  induction fuel as [|fuel IH]; intros [|c pending] w Hfuel; try reflexivity;
    change (c :: pending) with ([c] ++ pending) in Hfuel;
    rewrite answersAwaited_app in Hfuel;
    change (answersAwaited [c]) with (S (List.length (remaining c)) + 0) in Hfuel.
  - lia.
  - rewrite settle_cons. apply IH. rewrite answersAwaited_app.
    pose proof (resume_awaited c w). lia.
Qed.

(** What the answers leave alone, and what every suspended call carries:
    a property [P] of the setting names and values of the calls holds of
    every update that is sent and of every setting that is changed. *)
Section Invariant.
Variable P : string -> LanguageSpecificSettingValue -> Prop.

Lemma resume_invariant (c : Suspended) (w : World) :
  P (suspendedName c) (suspendedValue c) ->
  sameInputs w (snd (resume c w)) /\
  fileContents (snd (resume c w)) = fileContents w /\
  (exists ext,
      trace (snd (resume c w)) = trace w ++ ext /\
      Forall (fun e => isFileEvent e = false /\
                       forall name value target rejection,
                         e = Update name value target rejection -> P name value) ext) /\
  (forall name, settings (snd (resume c w)) name = settings w name \/
                P name (settings (snd (resume c w)) name)) /\
  Forall (fun c' => P (suspendedName c') (suspendedValue c'))
         (suspendedAgain (fst (resume c w))).
Proof.
  intros HP. unfold resume. destruct (updateRejection w (awaited c)) as [cause|].
  - set (w1 := if (index c =? chainLength c - 1)%nat
               then log (LoggerError (couldNotSetConfiguration (suspendedName c))
                                     (Some cause)) w
               else w).
    assert (H1 : sameInputs w w1 /\ fileContents w1 = fileContents w /\
                 settings w1 = settings w /\
                 exists ext,
                   trace w1 = trace w ++ ext /\
                   Forall (fun e => isFileEvent e = false /\
                                    forall name value target rejection,
                                      e = Update name value target rejection ->
                                      P name value) ext).
    { subst w1. destruct (index c =? chainLength c - 1)%nat.
      - repeat split. eexists [_]. split; [reflexivity|]. constructor; [|constructor].
        split; [reflexivity | discriminate].
      - repeat split. exists []. now rewrite app_nil_r. }
    clearbody w1. destruct H1 as (Hsame & Hf & Hset & ext & Ht & Hext).
    destruct (remaining c) as [|scope scopes']; cbn [fst snd suspendedAgain].
    + split; [exact Hsame|]. split; [exact Hf|]. split; [eauto|].
      split; [|constructor]. intros name. left. now rewrite Hset.
    + unfold sendUpdate, log. cbn [trace settings fileContents].
      split; [exact Hsame|]. split; [exact Hf|]. split; [|split].
      * eexists (ext ++ [_]). rewrite Ht, app_assoc. split; [reflexivity|].
        apply Forall_app. split; [exact Hext|]. constructor; [|constructor].
        split; [reflexivity|]. intros name value target rejection E.
        now injection E as <- <- _ _.
      * intros name. left. now rewrite Hset.
      * constructor; [exact HP | constructor].
  - cbn [fst snd suspendedAgain trace settings fileContents].
    split; [repeat split|]. split; [reflexivity|].
    split; [exists []; now rewrite app_nil_r|]. split; [|constructor].
    intros name. destruct (String.eqb_spec name (suspendedName c)) as [->|]; auto.
Qed.

Lemma settle_invariant (fuel : nat) :
  forall (pending : list Suspended) (w : World),
    Forall (fun c => P (suspendedName c) (suspendedValue c)) pending ->
    sameInputs w (snd (settle fuel pending w)) /\
    fileContents (snd (settle fuel pending w)) = fileContents w /\
    (exists ext,
        trace (snd (settle fuel pending w)) = trace w ++ ext /\
        Forall (fun e => isFileEvent e = false /\
                         forall name value target rejection,
                           e = Update name value target rejection -> P name value) ext) /\
    (forall name, settings (snd (settle fuel pending w)) name = settings w name \/
                  P name (settings (snd (settle fuel pending w)) name)).
Proof.
  assert (Hnone : forall (pending : list Suspended) (w : World),
             sameInputs w w /\ fileContents w = fileContents w /\
             (exists ext,
                 trace w = trace w ++ ext /\
                 Forall (fun e => isFileEvent e = false /\
                                  forall name value target rejection,
                                    e = Update name value target rejection -> P name value)
                        ext) /\
             (forall name, settings w name = settings w name \/ P name (settings w name))).
  { intros _ w. split; [apply sameInputs_refl|]. split; [reflexivity|].
    split; [exists []; now rewrite app_nil_r | auto]. }
  induction fuel as [|fuel IH]; intros [|c pending] w HP;
    try (cbn [settle snd]; apply Hnone; exact []).
  rewrite settle_cons. apply Forall_cons_iff in HP as [Hc HP].
  destruct (resume_invariant c w Hc) as (Hsame & Hf & (ext & Ht & Hext) & Hs & Hnext).
  destruct (IH (pending ++ suspendedAgain (fst (resume c w))) (snd (resume c w)))
    as (Hsame' & Hf' & (ext' & Ht' & Hext') & Hs').
  { apply Forall_app. split; assumption. }
  split; [eapply sameInputs_trans; eassumption|]. split; [congruence|].
  split.
  - exists (ext ++ ext'). rewrite Ht', Ht, app_assoc. split; [reflexivity|].
    apply Forall_app. split; assumption.
  - intros name. destruct (Hs' name) as [E | HPn]; [|now right].
    rewrite E. apply Hs.
Qed.

End Invariant.

(** The answers make no call to the file manager and change no file. *)
Lemma settle_no_files (fuel : nat) (pending : list Suspended) (w : World) :
  fileContents (snd (settle fuel pending w)) = fileContents w /\
  filter isFileEvent (trace (snd (settle fuel pending w))) = filter isFileEvent (trace w).
Proof.
  destruct (settle_invariant (fun _ _ => True) fuel pending w)
    as (_ & Hf & (ext & Ht & Hext) & _).
  { apply Forall_forall. auto. }
  split; [exact Hf|]. rewrite Ht, filter_app.
  replace (filter isFileEvent ext) with (@nil Event); [apply app_nil_r|].
  clear Ht. induction Hext as [|e ext [He _] _ IH]; [reflexivity|].
  simpl. now rewrite He.
Qed.

(** A single suspended call at a chain with a target that accepts: the
    targets after the awaited one are tried in order, up to the first that
    accepts, and the value is stored. *)
Lemma settle_single_accepted (name : string) (value : LanguageSpecificSettingValue)
    (n : nat) (pre post : list ConfigurationTarget) (s : ConfigurationTarget) :
  forall (i : nat) (first : ConfigurationTarget) (rest : list ConfigurationTarget)
         (w : World) (fuel : nat),
    first :: rest = pre ++ s :: post ->
    i + S (List.length rest) = n ->
    Forall (rejects w) pre ->
    updateRejection w s = None ->
    S (List.length rest) <= fuel ->
    exists w',
      settle fuel [mkSuspended name value n i first rest] w = ([], w') /\
      trace w' = trace w ++ map (attemptAt name value w) (tl (pre ++ [s])) /\
      settings w' = (fun name' => if name' =? name then value else settings w name') /\
      fileContents w' = fileContents w /\
      sameInputs w w'.
Proof.
  induction pre as [|p pre IH]; intros i first rest w fuel E Hn Hpre Hs Hfuel;
    (destruct fuel as [|fuel]; [lia|]); rewrite settle_cons; unfold resume;
    cbn [awaited remaining suspendedName suspendedValue index chainLength];
    injection E as -> ->.
  - rewrite Hs. cbn [fst snd suspendedAgain app]. rewrite settle_nil.
    eexists. split; [reflexivity|]. cbn [trace settings fileContents tl map].
    rewrite app_nil_r. repeat split.
  - apply Forall_cons_iff in Hpre as [Hp Hpre].
    unfold rejects in Hp. destruct (updateRejection w p) as [cause|] eqn:Ep; [|congruence].
    assert (Hi : (i =? n - 1)%nat = false).
    { apply Nat.eqb_neq. rewrite length_app in Hn. simpl in Hn. lia. }
    rewrite Hi.
    destruct (pre ++ s :: post) as [|next rest'] eqn:Erest;
      [now destruct pre|].
    cbn [fst snd suspendedAgain app].
    destruct (IH (S i) next rest' (sendUpdate name value next w) fuel)
      as (w' & Hrun & Ht & Hset & Hf & Hsame).
    + first [reflexivity | now rewrite Erest].
    + simpl in Hn. lia.
    + exact Hpre.
    + exact Hs.
    + simpl in Hfuel. lia.
    + exists w'. split; [exact Hrun|].
      split; [|split; [exact Hset | split; [exact Hf | exact Hsame]]].
      rewrite Ht. unfold sendUpdate. cbn [trace log]. rewrite <- app_assoc.
      f_equal. cbn [tl app].
      assert (Ehd : pre ++ [s] = next :: tl (pre ++ [s])).
      { destruct pre; simpl in *; now injection Erest as -> _. }
      rewrite Ehd at 2. reflexivity.
Qed.

(** A single suspended call at a chain of which every target rejects: the
    targets after the awaited one are tried in order, and the last rejection
    is logged. *)
Lemma settle_single_rejected (name : string) (value : LanguageSpecificSettingValue)
    (n : nat) :
  forall (rest : list ConfigurationTarget) (i : nat) (first : ConfigurationTarget)
         (w : World) (fuel : nat),
    i + S (List.length rest) = n ->
    Forall (rejects w) (first :: rest) ->
    S (List.length rest) <= fuel ->
    exists w',
      settle fuel [mkSuspended name value n i first rest] w = ([], w') /\
      trace w' = trace w ++ map (attemptAt name value w) rest
                   ++ [LoggerError (couldNotSetConfiguration name)
                         (updateRejection w (last (first :: rest) Global))] /\
      settings w' = settings w /\
      fileContents w' = fileContents w /\
      sameInputs w w'.
Proof.
  induction rest as [|next rest IH]; intros i first w fuel Hn Hall Hfuel;
    (destruct fuel as [|fuel]; [lia|]); rewrite settle_cons; unfold resume;
    cbn [awaited remaining suspendedName suspendedValue index chainLength];
    apply Forall_cons_iff in Hall as [Hp Hall];
    unfold rejects in Hp;
    (destruct (updateRejection w first) as [cause|] eqn:Ep; [|congruence]).
  - replace (i =? n - 1)%nat with true by (symmetry; apply Nat.eqb_eq; simpl in Hn; lia).
    cbn [fst snd suspendedAgain app]. rewrite settle_nil.
    eexists. split; [reflexivity|]. cbn [trace settings fileContents log map last app].
    rewrite Ep. repeat split.
  - replace (i =? n - 1)%nat with false
      by (symmetry; apply Nat.eqb_neq; simpl in Hn; lia).
    cbn [fst snd suspendedAgain app].
    destruct (IH (S i) next (sendUpdate name value next w) fuel)
      as (w' & Hrun & Ht & Hset & Hf & Hsame).
    + simpl in Hn. lia.
    + exact Hall.
    + simpl in Hfuel. lia.
    + exists w'. split; [exact Hrun|].
      split; [|split; [exact Hset | split; [exact Hf | exact Hsame]]].
      rewrite Ht. unfold sendUpdate. cbn [trace log]. rewrite <- app_assoc.
      reflexivity.
Qed.

End Answers.

Section Languages.
Import Settings.
Variable cleanUp : list string -> list string.
Variable u : Uri.
Variable settingName : string.
Variable scopes : list ConfigurationTarget.
Variable entries : LanguageSpecificSettingValue.

(** The entries of a language in the one-key object built for it. *)
Lemma mergeLanguage_one (settingValue : LanguageSpecificSettingValue) (language : string) :
  fold_left (mergeLanguage cleanUp (JS.set [] language (entriesOf entries language)))
            (JS.keys (JS.set [] language (entriesOf entries language))) settingValue
  = mergeLanguage cleanUp entries settingValue language.
Proof.
  simpl. unfold mergeLanguage, entriesOf at 1. simpl. now rewrite String.eqb_refl.
Qed.

(** The inline path started for one language: it reads the setting, merges
    the entries of the language and sends the update to the first target. *)
Lemma startInternalSetting_language (w : World) (language : string) :
  startInternalSetting cleanUp u settingName scopes
    (JS.set [] language (entriesOf entries language)) w
  = match scopes with
    | [] => (None, log (Get "ltex" settingName) w)
    | first :: rest =>
        (Some (mkSuspended settingName
                 (mergeLanguage cleanUp entries (settings w settingName) language)
                 (List.length scopes) 0 first rest),
         logAll [Get "ltex" settingName;
                 attemptAt settingName
                   (mergeLanguage cleanUp entries (settings w settingName) language)
                   w first] w)
    end.
Proof.
  unfold startInternalSetting. cbv zeta.
  change (settings (log (Get "ltex" settingName) w)) with (settings w).
  rewrite mergeLanguage_one. now destruct scopes.
Qed.


(** The inline path that is started and left to go on alone is the inline
    path that is awaited. *)
Lemma startInternalSetting_agrees (targets : list ConfigurationTarget)
    (incoming : LanguageSpecificSettingValue) (w : World) :
  settle (answersAwaited
            (suspendedAgain
               (fst (startInternalSetting cleanUp u settingName targets incoming w))))
         (suspendedAgain
            (fst (startInternalSetting cleanUp u settingName targets incoming w)))
         (snd (startInternalSetting cleanUp u settingName targets incoming w))
  = ([], snd (addToLanguageSpecificSettingInternalSetting
                cleanUp u settingName targets incoming w)).
Proof.
  unfold startInternalSetting, addToLanguageSpecificSettingInternalSetting. cbv zeta.
  set (w0 := log (Get "ltex" settingName) w).
  set (value := fold_left (mergeLanguage cleanUp incoming) (JS.keys incoming)
                          (settings w0 settingName)).
  destruct targets as [|first rest]; [reflexivity|].
  cbn [fst snd suspendedAgain].
  change (answersAwaited [mkSuspended settingName value (List.length (first :: rest))
                            0 first rest])
    with (S (List.length rest) + 0).
  destruct (first_accepting w0 (first :: rest)) as [Hall | (pre & s & post & E & Hpre & Hs)].
  - destruct (settle_single_rejected settingName value (List.length (first :: rest))
                rest 0 first (sendUpdate settingName value first w0)
                (S (List.length rest) + 0) eq_refl Hall ltac:(lia))
      as (w1 & Hrun & Ht & Hset & Hf & Hsame).
    destruct (updateLoop_rejected settingName value (first :: rest)
                (List.length (first :: rest)) 0 w0 eq_refl ltac:(discriminate) Hall)
      as (w2 & Hrun2 & Ht2 & Hset2 & Hf2 & Hsame2).
    rewrite Hrun, Hrun2. f_equal. cbn [snd]. apply world_fields.
    + unfold sameInputs in *. simpl in Hsame.
      destruct Hsame as (-> & -> & ->), Hsame2 as (-> & -> & ->). repeat split.
    + now rewrite Hset, Hset2.
    + now rewrite Hf, Hf2.
    + rewrite Ht, Ht2. unfold sendUpdate. cbn [trace log map]. rewrite <- app_assoc.
      reflexivity.
  - destruct (settle_single_accepted settingName value (List.length (first :: rest))
                pre post s 0 first rest (sendUpdate settingName value first w0)
                (S (List.length rest) + 0) E eq_refl Hpre Hs ltac:(lia))
      as (w1 & Hrun & Ht & Hset & Hf & Hsame).
    rewrite E.
    destruct (updateLoop_accepted settingName value pre post s
                (List.length (pre ++ s :: post)) 0 w0 eq_refl Hpre Hs)
      as (w2 & Hrun2 & Ht2 & Hset2 & Hf2 & Hsame2).
    rewrite <- E, Hrun. rewrite E, Hrun2. f_equal. cbn [snd]. apply world_fields.
    + unfold sameInputs in *. simpl in Hsame.
      destruct Hsame as (-> & -> & ->), Hsame2 as (-> & -> & ->). repeat split.
    + now rewrite Hset, Hset2.
    + now rewrite Hf, Hf2.
    + rewrite Ht, Ht2. unfold sendUpdate. cbn [trace log]. rewrite <- app_assoc.
      f_equal. destruct pre; simpl in E; injection E as -> E; reflexivity.
Qed.

(** The loop over the targets for one language changes neither the
    configuration nor the inputs, and calls the file manager only. *)
Lemma externalFileScopes_effect (language : string) (targets : list ConfigurationTarget) :
  forall w : World,
    sameInputs w (snd (externalFileScopes u settingName language entries targets w)) /\
    settings (snd (externalFileScopes u settingName language entries targets w))
    = settings w /\
    exists ext,
      trace (snd (externalFileScopes u settingName language entries targets w))
      = trace w ++ ext /\
      Forall (fun e => isUpdate e = false /\ isError e = false) ext.
Proof.
  induction targets as [|p targets IH]; intros w; simpl.
  - repeat split. exists []. now rewrite app_nil_r.
  - destruct (externalFilePath w u settingName p language).
    + repeat split. eexists [_; _]. simpl. rewrite <- app_assoc.
      split; [reflexivity|]. repeat constructor.
    + destruct (IH (log (GetFirstExternalFilePath u settingName p language) w))
        as (Hsame & Hs & ext & Ht & Hext).
      split; [exact Hsame|]. split; [exact Hs|].
      eexists (_ :: ext). rewrite Ht. simpl. rewrite <- app_assoc.
      split; [reflexivity|]. constructor; [split; reflexivity | assumption].
Qed.


(** The step for a language with no file at any target: the inline path
    is started for the language, after all targets have been asked. *)
Lemma externalFileLanguage_none (pending : list Suspended) (w : World)
    (language : string) :
  Forall (noFileAt w u settingName language) scopes ->
  externalFileLanguage cleanUp u settingName scopes entries (pending, w) language
  = (pending
       ++ suspendedAgain
            (fst (startInternalSetting cleanUp u settingName scopes
                    (JS.set [] language (entriesOf entries language))
                    (logAll (map (lookupAt u settingName language) scopes) w))),
     snd (startInternalSetting cleanUp u settingName scopes
            (JS.set [] language (entriesOf entries language))
            (logAll (map (lookupAt u settingName language) scopes) w))).
Proof.
  intros Hnone. unfold externalFileLanguage.
  rewrite (externalFileScopes_none u settingName entries language scopes w Hnone).
  cbn [negb]. now destruct (startInternalSetting _ _ _ _ _ _).
Qed.

(** What a step of the loop does in every case: the configuration is as it
    was, and an update that is sent, or that a call left suspended carries,
    is the setting with the entries of the language merged. *)
Lemma externalFileLanguage_step (pending : list Suspended) (w : World)
    (language : string) :
  let merged := mergeLanguage cleanUp entries (settings w settingName) language in
  let state := externalFileLanguage cleanUp u settingName scopes entries
                 (pending, w) language in
  sameInputs w (snd state) /\
  settings (snd state) = settings w /\
  (exists ext,
      trace (snd state) = trace w ++ ext /\
      Forall (fun e => isError e = false /\
                       forall name value target rejection,
                         e = Update name value target rejection ->
                         name = settingName /\ value = merged) ext) /\
  (exists started,
      fst state = pending ++ started /\
      Forall (fun c => suspendedName c = settingName /\ suspendedValue c = merged)
             started).
Proof.
  intros merged state. subst state. unfold externalFileLanguage.
  destruct (externalFileScopes_effect language scopes w) as (Hsame & Hs & ext & Ht & Hext).
  destruct (externalFileScopes u settingName language entries scopes w) as [written w1].
  cbn [snd] in *.
  assert (Hext' : Forall (fun e => isError e = false /\
                                   forall name value target rejection,
                                     e = Update name value target rejection ->
                                     name = settingName /\ value = merged) ext).
  { eapply Forall_impl; [|exact Hext]. intros e [Hu He]. split; [exact He|].
    intros name value target rejection ->. discriminate. }
  destruct written; cbn [negb fst snd].
  - split; [exact Hsame|]. split; [exact Hs|]. split; [eauto|].
    exists []. now rewrite app_nil_r.
  - rewrite startInternalSetting_language. rewrite Hs. fold merged.
    destruct scopes as [|first rest]; cbn [fst snd suspendedAgain].
    + split; [exact Hsame|]. split; [exact Hs|]. split.
      * eexists (ext ++ [_]). cbn [trace log]. rewrite Ht, app_assoc.
        split; [reflexivity|]. apply Forall_app. split; [exact Hext'|].
        constructor; [|constructor]. split; [reflexivity | discriminate].
      * exists []. now rewrite app_nil_r.
    + split; [exact Hsame|]. split; [exact Hs|]. split.
      * eexists (ext ++ [_; _]). cbn [logAll fold_left trace log].
        rewrite Ht, <- !app_assoc. split; [reflexivity|].
        apply Forall_app. split; [exact Hext'|].
        constructor; [split; [reflexivity | discriminate]|].
        constructor; [|constructor]. split; [reflexivity|].
        unfold attemptAt. intros name value target rejection E.
        now injection E as <- <- _ _.
      * eexists [_]. split; [reflexivity|]. constructor; [|constructor].
        split; reflexivity.
Qed.

(** The loop over the languages: the configuration is as it was when the
    loop is left, and the updates that were sent and the calls that are
    suspended carry the setting with the entries of one language merged. *)
Lemma externalFile_loop (languages : list string) :
  forall (pending : list Suspended) (w : World),
    let carried (name : string) (value : LanguageSpecificSettingValue) :=
      name = settingName /\
      exists language,
        In language languages /\
        value = mergeLanguage cleanUp entries (settings w settingName) language in
    let state := fold_left (externalFileLanguage cleanUp u settingName scopes entries)
                           languages (pending, w) in
    sameInputs w (snd state) /\
    settings (snd state) = settings w /\
    (exists ext,
        trace (snd state) = trace w ++ ext /\
        Forall (fun e => isError e = false /\
                         forall name value target rejection,
                           e = Update name value target rejection ->
                           carried name value) ext) /\
    (exists started,
        fst state = pending ++ started /\
        Forall (fun c => carried (suspendedName c) (suspendedValue c)) started).
Proof.
  induction languages as [|l languages IH]; intros pending w carried state;
    subst carried state; cbn [fold_left].
  - split; [apply sameInputs_refl|]. split; [reflexivity|].
    split; exists []; now rewrite app_nil_r.
  - destruct (externalFileLanguage_step pending w l)
      as (Hsame & Hs & (ext & Ht & Hext) & (started & Hp & Hstarted)).
    destruct (externalFileLanguage cleanUp u settingName scopes entries (pending, w) l)
      as [pending1 w1]. cbn [fst snd] in *.
    destruct (IH pending1 w1)
      as (Hsame' & Hs' & (ext' & Ht' & Hext') & (started' & Hp' & Hstarted')).
    rewrite Hs in Hext', Hstarted'.
    split; [eapply sameInputs_trans; eassumption|]. split; [congruence|]. split.
    + exists (ext ++ ext'). rewrite Ht', Ht, app_assoc. split; [reflexivity|].
      apply Forall_app. split.
      * eapply Forall_impl; [|exact Hext]. intros e [He Hu]. split; [exact He|].
        intros name value target rejection E.
        destruct (Hu _ _ _ _ E) as [-> ->]. split; [reflexivity|].
        exists l. split; [now left | reflexivity].
      * eapply Forall_impl; [|exact Hext']. intros e [He Hu]. split; [exact He|].
        intros name value target rejection E.
        destruct (Hu _ _ _ _ E) as [-> (l' & Hin & ->)]. split; [reflexivity|].
        exists l'. split; [now right | reflexivity].
    + exists (started ++ started'). rewrite Hp', Hp, app_assoc. split; [reflexivity|].
      apply Forall_app. split.
      * eapply Forall_impl; [|exact Hstarted]. intros c [-> ->]. split; [reflexivity|].
        exists l. split; [now left | reflexivity].
      * eapply Forall_impl; [|exact Hstarted']. intros c [-> (l' & Hin & ->)].
        split; [reflexivity|]. exists l'. split; [now right | reflexivity].
Qed.

(** The external-file path as a whole: every update that it sends carries
    the setting as it was with the entries of one incoming language merged,
    and every setting is as it was or is such a value. *)
Lemma externalFile_carried (w : World) :
  let carried (name : string) (value : LanguageSpecificSettingValue) :=
    name = settingName /\
    exists language,
      In language (JS.keys entries) /\
      value = mergeLanguage cleanUp entries (settings w settingName) language in
  let w' := addToLanguageSpecificSettingExternalFile cleanUp u settingName scopes entries w in
  sameInputs w w' /\
  (exists ext,
      trace w' = trace w ++ ext /\
      Forall (fun e => forall name value target rejection,
                         e = Update name value target rejection ->
                         carried name value) ext) /\
  (forall name, settings w' name = settings w name \/ carried name (settings w' name)).
Proof.
  intros carried w'. subst w'. unfold addToLanguageSpecificSettingExternalFile.
  destruct (externalFile_loop (JS.keys entries) [] w)
    as (Hsame & Hs & (ext & Ht & Hext) & (started & Hp & Hstarted)).
  destruct (fold_left (externalFileLanguage cleanUp u settingName scopes entries)
                      (JS.keys entries) ([], w)) as [pending w1].
  cbn [fst snd app] in *. subst pending.
  destruct (settle_invariant carried (answersAwaited started) started w1 Hstarted)
    as (Hsame' & _ & (ext' & Ht' & Hext') & Hs').
  split; [eapply sameInputs_trans; eassumption|]. split.
  - exists (ext ++ ext'). rewrite Ht', Ht, app_assoc. split; [reflexivity|].
    apply Forall_app. split.
    + eapply Forall_impl; [|exact Hext]. now intros e [_ Hu].
    + eapply Forall_impl; [|exact Hext']. now intros e [_ Hu].
  - intros name. rewrite <- Hs. apply Hs'.
Qed.







Lemma noFileAt_inputs (w w' : World) (language : string)
    (targets : list ConfigurationTarget) :
  sameInputs w w' ->
  Forall (noFileAt w u settingName language) targets ->
  Forall (noFileAt w' u settingName language) targets.
Proof. intros (_ & _ & Hp). unfold noFileAt. now rewrite Hp. Qed.




(** What the inline path stores: nothing when every target rejects, the
    merged value otherwise. *)
Lemma internalSetting_stored (targets : list ConfigurationTarget)
    (incoming : LanguageSpecificSettingValue) (w : World) :
  let w' := snd (addToLanguageSpecificSettingInternalSetting
                   cleanUp u settingName targets incoming w) in
  let value := fold_left (mergeLanguage cleanUp incoming) (JS.keys incoming)
                         (settings w settingName) in
  (Forall (rejects w) targets -> settings w' = settings w) /\
  (~ Forall (rejects w) targets ->
   settings w' = (fun name => if name =? settingName then value else settings w name)).
Proof.
  intros w' value. subst w' value. unfold addToLanguageSpecificSettingInternalSetting.
  cbv beta zeta. set (w0 := log (Get "ltex" settingName) w).
  change (settings w) with (settings w0).
  set (value := fold_left (mergeLanguage cleanUp incoming) (JS.keys incoming)
                          (settings w0 settingName)).
  destruct (first_accepting w targets) as [Hall | (pre & s & post & E & Hpre & Hs)].
  - split; [|contradiction]. intros _.
    destruct targets as [|p targets]; [reflexivity|].
    destruct (updateLoop_rejected settingName value (p :: targets)
                (List.length (p :: targets)) 0 w0 eq_refl ltac:(discriminate) Hall)
      as (w' & Hrun & _ & Hset & _).
    rewrite Hrun. exact Hset.
  - subst targets. split.
    + intros Hall. exfalso. rewrite Forall_forall in Hall.
      apply (Hall s); [apply in_elt | exact Hs].
    + intros _.
      destruct (updateLoop_accepted settingName value pre post s
                  (List.length (pre ++ s :: post)) 0 w0 eq_refl Hpre Hs)
        as (w' & Hrun & _ & Hset & _).
      rewrite Hrun. exact Hset.
Qed.


End Languages.

(** *** What is persisted *)


(** *** What is left alone *)


(** *** What is left alone *)

Section Frame.
Import Settings.
Variable cleanUp : list string -> list string.
Variable u : Uri.
Variable settingName : string.
Variable scopes : list ConfigurationTarget.





(** The inline path makes no call to the file manager. *)
Lemma updateLoop_no_files (value : LanguageSpecificSettingValue)
    (targets : list ConfigurationTarget) :
  forall (n i : nat) (w : World),
  exists ext,
    trace (snd (updateLoop settingName value n i targets w)) = trace w ++ ext /\
    filter isFileEvent ext = [].
Proof.
  induction targets as [|scope targets IH]; intros n i w.
  - exists []. simpl. now rewrite app_nil_r.
  - rewrite updateLoop_cons. destruct (updateRejection w scope) as [cause|].
    + cbv zeta. destruct (i =? n - 1)%nat.
      * match goal with
        | |- context [updateLoop settingName value n (S i) targets ?w1] =>
            destruct (IH n (S i) w1) as [ext [Ht Hf]]
        end.
        eexists (_ :: _ :: ext). rewrite Ht. simpl. rewrite <- !app_assoc.
        split; [reflexivity | exact Hf].
      * match goal with
        | |- context [updateLoop settingName value n (S i) targets ?w1] =>
            destruct (IH n (S i) w1) as [ext [Ht Hf]]
        end.
        eexists (_ :: ext). rewrite Ht. simpl. rewrite <- !app_assoc.
        split; [reflexivity | exact Hf].
    + eexists [_]. simpl. split; reflexivity.
Qed.


Lemma internalSetting_no_files (targets : list ConfigurationTarget)
    (entries : LanguageSpecificSettingValue) (w : World) :
  filter isFileEvent
    (trace (snd (addToLanguageSpecificSettingInternalSetting
                   cleanUp u settingName targets entries w)))
  = filter isFileEvent (trace w).
Proof.
  unfold addToLanguageSpecificSettingInternalSetting.
  match goal with
  | |- context [updateLoop settingName ?v ?n 0 targets ?w1] =>
      destruct (updateLoop_no_files v targets n 0 w1) as [ext [Ht Hf]]
  end.
  rewrite Ht. simpl. rewrite !filter_app, Hf. simpl. now rewrite !app_nil_r.
Qed.






End Frame.







Lemma store_empty_writes (cleanUp : list string -> list string) (u : Uri)
    (settingName : string) (scopeString : option string)
    (scopes : list Settings.ConfigurationTarget) (w : Settings.World)
    (e : Settings.Event) :
  In e (Settings.trace (store cleanUp u settingName [] scopeString scopes w)) ->
  isWrite e = true ->
  In e (Settings.trace w) \/
  exists target rejection,
    e = Settings.Update settingName (Settings.settings w settingName) target rejection.
Proof.
  unfold store.
  destruct (match scopeString with None => true | Some s => JS.endsWith s "ExternalFile" end).
  - now left.
  - destruct (internalSetting_effect cleanUp u settingName scopes [] w)
      as (w' & ext & Hrun & Ht & Hall & _).
    rewrite Hrun. simpl in *. rewrite Ht. intros Hin Hw.
    apply in_app_or in Hin as [Hin | [<- | Hin]]; [now left | discriminate |].
    rewrite Forall_forall in Hall. destruct (Hall _ Hin) as [Hu | Hn]; [now right|].
    congruence.
Qed.








(** ** The statements on sample inputs *)

Lemma compareCodeUnits_consistent : consistent Sample.compareCodeUnits.
Proof.
  assert (Hle : forall a b, (Sample.compareCodeUnits a b <= 0)%Z <-> (a <=? b) = true).
  { intros a b. unfold Sample.compareCodeUnits, String.leb.
    destruct (a ?= b); split; intros; try reflexivity; try lia; discriminate. }
  split.
  - intros a b. unfold Sample.compareCodeUnits.
    rewrite (String.compare_antisym b a). destruct (a ?= b); simpl; lia.
  - intros a b c. rewrite !Hle. apply string_leb_trans.
Qed.

Lemma checkAll_fail_fast_witness :
  Batch.checkAllDocumentsInWorkspace Sample.failing []
    = (false,
       [] ++ Sample.untilFailure
          ++ Batch.SendRequest (Sample.request Sample.b_tex) Sample.failure
          :: Sample.afterFailure) /\
  Batch.success Sample.failure = false /\
  Batch.requested Sample.afterFailure = [] /\
  (exists u, In u (sortedDocuments Sample.failing []) /\
     Sample.afterFailure
     = [Batch.ShowErrorMessage
          (Batch.couldNotCheckDocument (fsPath u) (Batch.errorMessage Sample.failure))]) /\
  (exists k, Batch.requested Sample.untilFailure ++ [Batch.uri (Sample.request Sample.b_tex)]
             = map uriToString (firstn k (sortedDocuments Sample.failing []))).
Proof.
  assert (Hrun : Batch.checkAllDocumentsInWorkspace Sample.failing []
                 = (false,
                    [] ++ Sample.untilFailure
                       ++ Batch.SendRequest (Sample.request Sample.b_tex) Sample.failure
                       :: Sample.afterFailure)) by reflexivity.
  split; [exact Hrun|]. split; [reflexivity|].
  exact (proj2 (checkAll_fail_fast Sample.failing [] Sample.untilFailure
                  Sample.afterFailure (Sample.request Sample.b_tex) Sample.failure
                  false Hrun eq_refl)).
Defined.

(** The token is set while the documents are searched and none is found:
    the batch checker does not read it again and reports the failure of
    a search without result. *)
Lemma checkAll_cancelled_without_documents :
  Batch.isCancellationRequested Sample.cancelledEmpty
    [Batch.StartTask 10 Batch.findingAllDocumentsInWorkspace] = false /\
  Batch.isCancellationRequested Sample.cancelledEmpty
    (discoveryEvents Sample.cancelledEmpty []) = true /\
  Batch.checkAllDocumentsInWorkspace Sample.cancelledEmpty []
  = (false,
     discoveryEvents Sample.cancelledEmpty []
       ++ [Batch.FinishTask;
           Batch.ShowErrorMessage Batch.couldNotCheckDocumentsAsNoDocumentsWereFound]) /\
  Batch.requested (snd (Batch.checkAllDocumentsInWorkspace Sample.cancelledEmpty [])) = [].
Proof. repeat split. Qed.

Lemma checkAll_cancellation_witness :
  Batch.checkAllDocumentsInWorkspace Sample.cancelledFirst []
  = (true, discoveryEvents Sample.cancelledFirst [] ++ [Sample.progress 0 Sample.a_tex]) /\
  Batch.requested (discoveryEvents Sample.cancelledFirst [] ++ [Sample.progress 0 Sample.a_tex])
  = [] /\
  (true = true /\ @nil Batch.Event = []).
Proof.
  destruct (checkAll_cancellation Sample.cancelledFirst []) as [Hpoint Hfirst].
  destruct (Hfirst Sample.a_tex [Sample.b_tex; Sample.c_tex]
              eq_refl ltac:(discriminate) eq_refl eq_refl eq_refl) as [Hrun Hnone].
  split; [exact Hrun|]. split; [exact Hnone|].
  exact (Hpoint true (discoveryEvents Sample.cancelledFirst []) []
           (Sample.progress 0 Sample.a_tex) Hrun eq_refl eq_refl).
Defined.

Lemma checkAll_order_witness :
  Batch.requested (snd (Batch.checkAllDocumentsInWorkspace Sample.plain []))
  = ["file:///w/a.tex"; "file:///w/b.tex"; "file:///w/c.tex"].
Proof.
  destruct (checkAll_order Sample.plain [] eq_refl ltac:(discriminate)
              compareCodeUnits_consistent)
    as (_ & _ & _ & _ & Hall & Hthree).
  destruct (Hall (fun _ => eq_refl) (fun _ _ => eq_refl)) as [ext [Hrun Hreq]].
  rewrite Hrun. simpl app. rewrite Hreq.
  rewrite (Hthree Sample.a_tex Sample.b_tex Sample.c_tex eq_refl eq_refl eq_refl).
  reflexivity.
Defined.

Lemma scope_chain_witness :
  Settings.trace
    (Settings.addToLanguageSpecificSetting Settings.normalize Sample.document
       "dictionary" Sample.newEntries Sample.invalid)
  = [Settings.Get "ltex.configurationTarget" "dictionary";
     Settings.LoggerError (Settings.invalidValueForConfigurationTarget "invalidScope") None] /\
  Settings.addToLanguageSpecificSetting Settings.normalize Sample.document
    "dictionary" Sample.newEntries Sample.aliased
  = store Settings.normalize Sample.document "dictionary" Sample.newEntries
          (Some "workspace") [Settings.Workspace; Settings.Global]
          (logAll [Settings.Get "ltex.configurationTarget" "dictionary";
                   Settings.Get "ltex.configurationTarget" "addToDictionary"]
                  Sample.aliased).
Proof.
  destruct (scope_chain Settings.normalize Sample.document "dictionary"
              Sample.newEntries Sample.invalid) as (_ & _ & _ & Hinvalid).
  destruct (Hinvalid "invalidScope" eq_refl eq_refl eq_refl eq_refl eq_refl) as [Ht _].
  split; [exact Ht|].
  destruct (scope_chain Settings.normalize Sample.document "dictionary"
              Sample.newEntries Sample.aliased) as (_ & Hworkspace & _).
  exact (Hworkspace "workspace" eq_refl eq_refl eq_refl).
Defined.

Lemma empty_scope_string_witness :
  Settings.configurationTarget Sample.emptyPreference "addToDictionary"
  = Some "workspaceFolder" /\
  Settings.trace
    (Settings.addToLanguageSpecificSetting Settings.normalize Sample.document
       "dictionary" Sample.newEntries Sample.emptyPreference)
  = [Settings.Get "ltex.configurationTarget" "dictionary";
     Settings.LoggerError (Settings.invalidValueForConfigurationTarget "") None].
Proof.
  split; [reflexivity|].
  exact (proj1 (empty_scope_string Settings.normalize Sample.document "dictionary"
                  Sample.newEntries Sample.emptyPreference eq_refl)).
Defined.



Lemma internalSetting_retry_witness :
  exists w',
    Settings.addToLanguageSpecificSettingInternalSetting Settings.normalize
      Sample.document "dictionary"
      [Settings.WorkspaceFolder; Settings.Workspace; Settings.Global]
      Sample.newEntries Sample.folderless = (Settings.Normal tt, w') /\
    Settings.settings w' "dictionary" = [("en-US", ["bar"; "foo"]); ("de-DE", ["Haus"])] /\
    filter isError (Settings.trace w') = [].
Proof.
  destruct (internalSetting_retry Settings.normalize Sample.document "dictionary"
              [Settings.WorkspaceFolder; Settings.Workspace; Settings.Global]
              Sample.newEntries Sample.folderless ltac:(discriminate))
    as (w' & ext & Hrun & Ht & Haccepted & _).
  destruct (Haccepted [Settings.WorkspaceFolder; Settings.Workspace] Settings.Global []
              eq_refl
              ltac:(repeat (constructor; try discriminate))
              eq_refl) as [Hext Hvalue].
  exists w'. split; [exact Hrun|]. split; [exact Hvalue|].
  rewrite Ht, Hext. reflexivity.
Defined.





(** ** Further properties of the batch checker *)

Section BatchReport.
Variable env : Batch.Environment.

(** How the loop ends, in terms of the error messages and of the answers
    to its requests. *)
Lemma checkLoop_report (uris : list Uri) :
  forall (n i : nat) (t : list Batch.Event),
  exists ext,
    snd (Batch.checkLoop env n i uris t) = t ++ ext /\
    match fst (Batch.checkLoop env n i uris t) with
    | Some false =>
        exists pre m,
          ext = pre ++ [Batch.ShowErrorMessage m] /\
          filter isShowError pre = [] /\
          (Batch.languageClient env = false \/
           exists args r, In (Batch.SendRequest args r) pre /\ Batch.success r = false) /\
          m <> Batch.couldNotCheckDocumentsAsNoDocumentsWereFound /\
          m <> Batch.couldNotCheckDocumentsAsNoFoldersWereOpened
    | _ =>
        filter isShowError ext = [] /\
        Forall (fun e => forall args r,
                    e = Batch.SendRequest args r -> Batch.success r = true) ext
    end.
Proof.
  induction uris as [|u uris IH]; intros n i t.
  - exists []. simpl. rewrite app_nil_r. repeat split. constructor.
  - rewrite checkLoop_cons. cbv zeta.
    set (r1 := Batch.sendRequest env _ _).
    destruct (Batch.isCancellationRequested env (t ++ [_])).
    { eexists [_]. simpl. repeat split. repeat constructor. discriminate. }
    destruct (Batch.languageClient env) eqn:Hclient; simpl.
    2:{ eexists [_; _]. rewrite <- app_assoc. simpl. split; [reflexivity|].
        eexists [_], _. repeat split; try discriminate. now left. }
    destruct (Batch.success r1) eqn:Hs.
    + match goal with
      | |- context [Batch.checkLoop env n (S i) uris ?t'] =>
          destruct (IH n (S i) t') as [ext [Ht Hext]];
            destruct (Batch.checkLoop env n (S i) uris t') as [res t'']
      end.
      simpl in Ht, Hext. subst t''.
      eexists (_ :: _ :: ext). simpl. rewrite <- !app_assoc. simpl.
      split; [reflexivity|].
      assert (Hok : filter isShowError ext = [] /\
                    Forall (fun e => forall args r,
                                e = Batch.SendRequest args r -> Batch.success r = true) ext ->
                    filter isShowError
                      (Batch.UpdateTask i n
                         (Batch.checkingDocumentN (i + 1) n (Batch.basename env (fsPath u)))
                       :: Batch.SendRequest (Batch.mkArgs (uriToString u) None None) r1
                       :: ext) = [] /\
                    Forall (fun e => forall args r,
                                e = Batch.SendRequest args r -> Batch.success r = true)
                      (Batch.UpdateTask i n
                         (Batch.checkingDocumentN (i + 1) n (Batch.basename env (fsPath u)))
                       :: Batch.SendRequest (Batch.mkArgs (uriToString u) None None) r1
                       :: ext)).
      { intros [Hf Hall]. split; [exact Hf|].
        constructor; [discriminate|]. constructor; [|exact Hall].
        intros args r E. injection E as _ <-. exact Hs. }
      destruct res as [[|]|]; try (apply Hok; exact Hext).
      destruct Hext as (pre & m & -> & Hf & Hcause & Hm).
      eexists (_ :: _ :: pre), m. simpl. repeat split; try apply Hm; try assumption.
      destruct Hcause as [Hc | (args & r & Hin & Hr)]; [now left|].
      right. exists args, r. simpl. auto.
    + eexists [_; _; _]. rewrite <- app_assoc. simpl. split; [reflexivity|].
      eexists [_; _], _. repeat split; try discriminate.
      right. do 2 eexists. split; [right; left; reflexivity | exact Hs].
Qed.

(** How a run of the batch checker ends. *)
Lemma checkAll_report (t : list Batch.Event) :
  exists ext,
    snd (Batch.checkAllDocumentsInWorkspace env t) = t ++ ext /\
    if fst (Batch.checkAllDocumentsInWorkspace env t)
    then filter isShowError ext = [] /\
         Forall (fun e => forall args r,
                     e = Batch.SendRequest args r -> Batch.success r = true) ext
    else exists pre m,
           ext = pre ++ [Batch.ShowErrorMessage m] /\
           filter isShowError pre = [] /\
           ((Batch.languageClient env = false /\ m = Batch.ltexNotInitialized) \/
            (m <> Batch.couldNotCheckDocumentsAsNoDocumentsWereFound /\
             m <> Batch.couldNotCheckDocumentsAsNoFoldersWereOpened /\
             exists args r, In (Batch.SendRequest args r) pre /\ Batch.success r = false) \/
            (Batch.languageClient env = true /\
             Batch.isCancellationRequested env
               (t ++ [Batch.StartTask 10 Batch.findingAllDocumentsInWorkspace]) = false /\
             getEnabledFileExtensions (Batch.enabled env) <> [] /\
             discovered env t = [] /\
             m = nothingFound env)).
Proof.
  rewrite checkAll_unfold.
  destruct (Batch.languageClient env) eqn:Hclient; simpl.
  2:{ eexists [_]. split; [reflexivity|]. exists [], Batch.ltexNotInitialized.
      repeat split. now left. }
  destruct (Batch.isCancellationRequested env _) eqn:Hcancel.
  { eexists [_]. simpl. repeat split. repeat constructor. discriminate. }
  destruct (getEnabledFileExtensions (Batch.enabled env)) as [|e es] eqn:Hext; simpl.
  { eexists [_]. simpl. repeat split. repeat constructor. discriminate. }
  assert (Hdisc : filter isShowError (discoveryEvents env t) = [] /\
                  Forall (fun e => forall args r,
                              e = Batch.SendRequest args r -> Batch.success r = true)
                         (discoveryEvents env t)).
  { split; [reflexivity|]. repeat constructor; discriminate. }
  destruct Hdisc as [Hdf Hda].
  destruct (checkLoop_report (sortedDocuments env t)
              (List.length (sortedDocuments env t)) 0 (t ++ discoveryEvents env t))
    as [ext [Ht Hrep]].
  destruct (Batch.checkLoop env _ 0 _ _) as [res t'] eqn:Hloop.
  simpl in Ht, Hrep. subst t'.
  destruct res as [[|]|]; simpl.
  - exists (discoveryEvents env t ++ ext). rewrite <- app_assoc.
    split; [reflexivity|]. destruct Hrep as [Hf Hall].
    split; [now rewrite filter_app, Hdf, Hf | now apply Forall_app].
  - exists (discoveryEvents env t ++ ext). rewrite <- app_assoc.
    split; [reflexivity|].
    destruct Hrep as (pre & m & -> & Hf & Hcause & Hm1 & Hm2).
    exists (discoveryEvents env t ++ pre), m. rewrite <- app_assoc.
    split; [reflexivity|]. split; [now rewrite filter_app, Hdf, Hf|].
    right. left. repeat split; try assumption.
    destruct Hcause as [Hc | (args & r & Hin & Hr)]; [congruence|].
    exists args, r. split; [apply in_or_app; now right | exact Hr].
  - destruct Hrep as [Hf Hall].
    destruct (sortedDocuments env t) as [|d ds] eqn:Hsorted; simpl.
    + exists (discoveryEvents env t ++ ext
              ++ [Batch.FinishTask; Batch.ShowErrorMessage (nothingFound env)]).
      rewrite <- !app_assoc. split; [reflexivity|].
      exists (discoveryEvents env t ++ ext ++ [Batch.FinishTask]), (nothingFound env).
      rewrite <- !app_assoc. split; [reflexivity|].
      split; [now rewrite !filter_app, Hdf, Hf|].
      right. right. repeat split; try congruence.
      unfold sortedDocuments in Hsorted.
      apply (f_equal (@List.length Uri)) in Hsorted. simpl in Hsorted.
      rewrite <- (Permutation_length (sort_perm _ _)) in Hsorted.
      now destruct (discovered env t).
    + exists (discoveryEvents env t ++ ext ++ [Batch.FinishTask]).
      rewrite <- !app_assoc. split; [reflexivity|].
      split; [now rewrite !filter_app, Hdf, Hf|].
      apply Forall_app. split; [exact Hda|]. apply Forall_app. split; [exact Hall|].
      repeat constructor; discriminate.
Qed.

End BatchReport.

(** X1: a run of the batch checker that returns [false] has shown exactly
    one error message, as its last act; a run that returns [true] has shown
    none. *)
Theorem checkAll_reports_failure (env : Batch.Environment) (t ext : list Batch.Event) :
  snd (Batch.checkAllDocumentsInWorkspace env t) = t ++ ext ->
  List.length (filter isShowError ext)
  = (if fst (Batch.checkAllDocumentsInWorkspace env t) then 0 else 1) /\
  (fst (Batch.checkAllDocumentsInWorkspace env t) = false ->
   exists pre m, ext = pre ++ [Batch.ShowErrorMessage m]).
Proof.
  intros Hext. destruct (checkAll_report env t) as [ext' [Ht Hrep]].
  rewrite Hext in Ht. apply app_inv_head in Ht. subst ext'.
  destruct (fst (Batch.checkAllDocumentsInWorkspace env t)).
  - destruct Hrep as [Hf _]. rewrite Hf. split; [reflexivity | discriminate].
  - destruct Hrep as (pre & m & -> & Hf & _).
    rewrite filter_app, Hf. split; [reflexivity | eauto].
Qed.

(** X2: the batch checker returns [false] in three cases and in no other:
    the language client is not set, a check request was answered with a
    failure, or the search was made and found no document. *)
Theorem checkAll_failure_causes (env : Batch.Environment) (t ext : list Batch.Event) :
  snd (Batch.checkAllDocumentsInWorkspace env t) = t ++ ext ->
  (fst (Batch.checkAllDocumentsInWorkspace env t) = false <->
   Batch.languageClient env = false \/
   (exists args r, In (Batch.SendRequest args r) ext /\ Batch.success r = false) \/
   (Batch.languageClient env = true /\
    Batch.isCancellationRequested env
      (t ++ [Batch.StartTask 10 Batch.findingAllDocumentsInWorkspace]) = false /\
    getEnabledFileExtensions (Batch.enabled env) <> [] /\
    discovered env t = [])).
Proof.
  intros Hext. destruct (checkAll_report env t) as [ext' [Ht Hrep]].
  rewrite Hext in Ht. apply app_inv_head in Ht. subst ext'.
  split.
  - intros Hfalse. rewrite Hfalse in Hrep.
    destruct Hrep as (pre & m & -> & _ & [[Hc _] | [(_ & _ & args & r & Hin & Hr) | Hnone]]).
    + now left.
    + right. left. exists args, r. split; [apply in_or_app; now left | exact Hr].
    + right. right. tauto.
  - intros [Hc | [(args & r & Hin & Hr) | (Hc & Hcancel & Hne & Hnone)]].
    + rewrite checkAll_unfold, Hc. reflexivity.
    + destruct (fst (Batch.checkAllDocumentsInWorkspace env t)); [|reflexivity].
      destruct Hrep as [_ Hall]. rewrite Forall_forall in Hall.
      rewrite (Hall _ Hin args r eq_refl) in Hr. discriminate.
    + rewrite checkAll_unfold, Hc, Hcancel. simpl.
      destruct (getEnabledFileExtensions (Batch.enabled env)); [congruence|]. simpl.
      unfold sortedDocuments. rewrite Hnone. reflexivity.
Qed.

(** X3: the two messages of a search without result are shown only when
    the search was made and found no document; which of the two is shown
    tells whether a folder is open. *)
Theorem checkAll_nothing_found (env : Batch.Environment) (t ext : list Batch.Event) :
  snd (Batch.checkAllDocumentsInWorkspace env t) = t ++ ext ->
  let searchedInVain :=
    Batch.languageClient env = true /\
    Batch.isCancellationRequested env
      (t ++ [Batch.StartTask 10 Batch.findingAllDocumentsInWorkspace]) = false /\
    getEnabledFileExtensions (Batch.enabled env) <> [] /\
    discovered env t = [] in
  (In (Batch.ShowErrorMessage Batch.couldNotCheckDocumentsAsNoDocumentsWereFound) ext <->
   searchedInVain /\ Batch.workspaceFolders env = true) /\
  (In (Batch.ShowErrorMessage Batch.couldNotCheckDocumentsAsNoFoldersWereOpened) ext <->
   searchedInVain /\ Batch.workspaceFolders env = false).
Proof.
  intros Hext searchedInVain.
  destruct (checkAll_report env t) as [ext' [Ht Hrep]].
  rewrite Hext in Ht. apply app_inv_head in Ht. subst ext'.
  assert (Hshown : forall m,
             (m = Batch.couldNotCheckDocumentsAsNoDocumentsWereFound \/
              m = Batch.couldNotCheckDocumentsAsNoFoldersWereOpened) ->
             In (Batch.ShowErrorMessage m) ext -> searchedInVain /\ m = nothingFound env).
  { intros m Hm Hin.
    assert (Hfilter : In (Batch.ShowErrorMessage m) (filter isShowError ext))
      by (apply filter_In; auto).
    destruct (fst (Batch.checkAllDocumentsInWorkspace env t)).
    - destruct Hrep as [Hf _]. rewrite Hf in Hfilter. destruct Hfilter.
    - destruct Hrep as (pre & m' & -> & Hf & Hcause).
      rewrite filter_app, Hf in Hfilter. simpl in Hfilter.
      destruct Hfilter as [E | []]. injection E as ->.
      destruct Hcause as [[_ ->] | [(H1 & H2 & _) | (Hc & Hcancel & Hne & Hnone & ->)]].
      + destruct Hm; discriminate.
      + destruct Hm; congruence.
      + unfold searchedInVain. auto. }
  assert (Hvain : searchedInVain -> In (Batch.ShowErrorMessage (nothingFound env)) ext).
  { intros (Hc & Hcancel & Hne & Hnone).
    assert (E : snd (Batch.checkAllDocumentsInWorkspace env t)
                = t ++ discoveryEvents env t
                    ++ [Batch.FinishTask; Batch.ShowErrorMessage (nothingFound env)]).
    { rewrite checkAll_unfold, Hc, Hcancel. simpl.
      destruct (getEnabledFileExtensions (Batch.enabled env)); [congruence|]. simpl.
      unfold sortedDocuments. rewrite Hnone. simpl. rewrite <- app_assoc.
      unfold discoveryEvents. rewrite ?Hnone. reflexivity. }
    rewrite Hext in E. apply app_inv_head in E. rewrite E.
    apply in_or_app. right. right. now left. }
  unfold nothingFound in *. split; split.
  - intros Hin. destruct (Hshown _ (or_introl eq_refl) Hin) as [Hv Hm].
    split; [exact Hv|]. destruct (Batch.workspaceFolders env); [reflexivity | discriminate].
  - intros [Hv Hw]. rewrite Hw in Hvain. auto.
  - intros Hin. destruct (Hshown _ (or_intror eq_refl) Hin) as [Hv Hm].
    split; [exact Hv|]. destruct (Batch.workspaceFolders env); [discriminate | reflexivity].
  - intros [Hv Hw]. rewrite Hw in Hvain. auto.
Qed.

(** ** Further properties of the enabled extensions *)

Lemma string_ltb_irrefl (x : string) : (x <? x) = false.
Proof.
  unfold String.ltb. pose proof (String.compare_antisym x x) as H.
  destruct (x ?= x); try reflexivity; discriminate.
Qed.

Lemma string_ltb_asym (x y : string) : (x <? y) = true -> (y <? x) = true -> False.
Proof.
  unfold String.ltb. rewrite (String.compare_antisym y x).
  destruct (x ?= y); simpl; discriminate.
Qed.

(** A list in strictly increasing order is determined by its elements. *)
Lemma strictly_sorted_unique (l1 : list string) :
  forall l2 : list string,
    StronglySorted (fun a b => (a <? b) = true) l1 ->
    StronglySorted (fun a b => (a <? b) = true) l2 ->
    (forall x, In x l1 <-> In x l2) ->
    l1 = l2.
Proof.
  induction l1 as [|x l1 IH]; intros [|y l2] H1 H2 Hin.
  - reflexivity.
  - destruct (proj2 (Hin y) (or_introl eq_refl)).
  - destruct (proj1 (Hin x) (or_introl eq_refl)).
  - inversion H1 as [|? ? Hs1 Hx]; inversion H2 as [|? ? Hs2 Hy]; subst.
    rewrite Forall_forall in Hx, Hy.
    assert (Hxy : x = y).
    { destruct (proj1 (Hin x) (or_introl eq_refl)) as [E | Hx2]; [now symmetry|].
      destruct (proj2 (Hin y) (or_introl eq_refl)) as [E | Hy1]; [assumption|].
      destruct (string_ltb_asym x y (Hx _ Hy1) (Hy _ Hx2)). }
    subst y. f_equal. apply IH; try assumption.
    intros z. split; intros Hz.
    + destruct (proj1 (Hin z) (or_intror Hz)) as [E | Hz2]; [|assumption].
      subst z. apply Hx in Hz. rewrite string_ltb_irrefl in Hz. discriminate.
    + destruct (proj2 (Hin z) (or_intror Hz)) as [E | Hz1]; [|assumption].
      subst z. apply Hy in Hz. rewrite string_ltb_irrefl in Hz. discriminate.
Qed.

Lemma extensions_membership (enabled : EnabledSetting) (e : string) :
  In e (getEnabledFileExtensions enabled) <->
  exists id, In id (enabledCodeLanguageIds enabled) /\ contributes id e.
Proof.
  unfold getEnabledFileExtensions, JS.sortStrings.
  rewrite sort_In, extensions_In. simpl. split; [intros [[] | H]; exact H | auto].
Qed.

Lemma extensions_strictly_sorted (enabled : EnabledSetting) :
  StronglySorted (fun a b => (a <? b) = true) (getEnabledFileExtensions enabled).
Proof.
  apply sortStrings_sorted, extensions_NoDup. constructor.
Qed.

Lemma contributes_known (id : string) :
  knownLanguage id = true <-> exists e, contributes id e.
Proof.
  unfold knownLanguage, contributes. rewrite !orb_true_iff, !String.eqb_eq. split.
  - intros [[[-> | ->] | ->] | ->]; eexists; eauto 6.
  - intros [e [[H _] | [[[H | H] _] | [H _]]]]; auto.
Qed.

Lemma extensions_empty_iff (enabled : EnabledSetting) :
  getEnabledFileExtensions enabled = [] <->
  forall id, In id (enabledCodeLanguageIds enabled) -> knownLanguage id = false.
Proof.
  split.
  - intros Hempty id Hin. destruct (knownLanguage id) eqn:Hk; [|reflexivity].
    apply contributes_known in Hk as [e He].
    assert (Hine : In e (getEnabledFileExtensions enabled))
      by (apply extensions_membership; eauto).
    rewrite Hempty in Hine. destruct Hine.
  - intros Hnone. destruct (getEnabledFileExtensions enabled) as [|e es] eqn:E;
      [reflexivity|].
    assert (Hine : In e (getEnabledFileExtensions enabled)) by (rewrite E; now left).
    apply extensions_membership in Hine as [id [Hin Hc]].
    assert (Hk : knownLanguage id = true) by (apply contributes_known; eauto).
    rewrite (Hnone id Hin) in Hk. discriminate.
Qed.

(** X4: two lists of code language ids give the same extensions exactly
    when they agree on bibtex, on markdown, and on having latex or rsweave:
    the order of the ids, their repetition and the ids that are not known do
    not matter. *)
Theorem extensions_agree (ids1 ids2 : list string) :
  getEnabledFileExtensions (EnabledList ids1) = getEnabledFileExtensions (EnabledList ids2)
  <->
  (In "bibtex" ids1 <-> In "bibtex" ids2) /\
  (In "latex" ids1 \/ In "rsweave" ids1 <-> In "latex" ids2 \/ In "rsweave" ids2) /\
  (In "markdown" ids1 <-> In "markdown" ids2).
Proof.
  assert (Hmem : forall ids e,
             In e (getEnabledFileExtensions (EnabledList ids)) <->
             (e = "bib" /\ In "bibtex" ids) \/
             (e = "tex" /\ (In "latex" ids \/ In "rsweave" ids)) \/
             (e = "md" /\ In "markdown" ids)).
  { intros ids e. rewrite extensions_membership. simpl. unfold contributes. split.
    - intros [id [Hin [[-> ->] | [[[-> | ->] ->] | [-> ->]]]]]; auto.
    - intros [[-> H] | [[-> [H | H]] | [-> H]]]; eexists; (split; [exact H|]); auto. }
  split.
  - intros E.
    assert (Hsame : forall e, In e (getEnabledFileExtensions (EnabledList ids1)) <->
                              In e (getEnabledFileExtensions (EnabledList ids2)))
      by (intros e; now rewrite E).
    pose proof (Hsame "bib") as Hb. pose proof (Hsame "tex") as Ht.
    pose proof (Hsame "md") as Hm. rewrite !Hmem in Hb, Ht, Hm.
    repeat split; intros H.
    + destruct (proj1 Hb (or_introl (conj eq_refl H)))
        as [[_ H'] | [[E' _] | [E' _]]]; [exact H' | discriminate | discriminate].
    + destruct (proj2 Hb (or_introl (conj eq_refl H)))
        as [[_ H'] | [[E' _] | [E' _]]]; [exact H' | discriminate | discriminate].
    + destruct (proj1 Ht (or_intror (or_introl (conj eq_refl H))))
        as [[E' _] | [[_ H'] | [E' _]]]; [discriminate | exact H' | discriminate].
    + destruct (proj2 Ht (or_intror (or_introl (conj eq_refl H))))
        as [[E' _] | [[_ H'] | [E' _]]]; [discriminate | exact H' | discriminate].
    + destruct (proj1 Hm (or_intror (or_intror (conj eq_refl H))))
        as [[E' _] | [[E' _] | [_ H']]]; [discriminate | discriminate | exact H'].
    + destruct (proj2 Hm (or_intror (or_intror (conj eq_refl H))))
        as [[E' _] | [[E' _] | [_ H']]]; [discriminate | discriminate | exact H'].
  - intros (Hb & Ht & Hm).
    apply strictly_sorted_unique; try apply extensions_strictly_sorted.
    intros e. rewrite !Hmem. tauto.
Qed.

(** X5: no extension is enabled exactly when none of the ids is bibtex,
    latex, rsweave or markdown; there are never more than three; and the
    legacy value [true] stands for the list of the four known ids. *)
Theorem extensions_bounds (enabled : EnabledSetting) :
  (getEnabledFileExtensions enabled = [] <->
   forall id, In id (enabledCodeLanguageIds enabled) -> knownLanguage id = false) /\
  List.length (getEnabledFileExtensions enabled) <= 3 /\
  (forall ids,
      (forall id, knownLanguage id = true -> In id ids) ->
      getEnabledFileExtensions (EnabledList ids) = getEnabledFileExtensions (EnabledBool true)).
Proof.
  split; [apply extensions_empty_iff|]. split.
  - change 3 with (List.length ["bib"; "tex"; "md"]).
    apply NoDup_incl_length.
    + apply sort_NoDup, extensions_NoDup. constructor.
    + intros e He. apply extensions_membership in He as [id [_ Hc]].
      unfold contributes in Hc. simpl.
      destruct Hc as [[_ ->] | [[_ ->] | [_ ->]]]; auto.
  - intros ids Hall.
    apply strictly_sorted_unique; try apply extensions_strictly_sorted.
    intros e. rewrite !extensions_membership. simpl. split.
    + intros [id [_ Hc]].
      assert (Hk : knownLanguage id = true) by (apply contributes_known; eauto).
      exists id. split; [|exact Hc].
      unfold knownLanguage in Hk. rewrite !orb_true_iff, !String.eqb_eq in Hk.
      destruct Hk as [[[-> | ->] | ->] | ->]; auto.
    + intros [id [_ Hc]]. exists id. split; [|exact Hc].
      apply Hall, contributes_known. eauto.
Qed.

(** ** Further properties of the runs of the batch checker *)

(** X6: when none of the enabled ids is a known language (in particular
    when the setting is [false]), the batch checker that has its language
    client starts the discovery task, searches nothing, sends no request and
    returns [true], cancelled or not. *)
Theorem checkAll_nothing_enabled (env : Batch.Environment) (t : list Batch.Event) :
  Batch.languageClient env = true ->
  (forall id, In id (enabledCodeLanguageIds (Batch.enabled env)) ->
     knownLanguage id = false) ->
  Batch.checkAllDocumentsInWorkspace env t
  = (true, t ++ [Batch.StartTask 10 Batch.findingAllDocumentsInWorkspace]).
Proof.
  intros Hclient Hnone. apply extensions_empty_iff in Hnone.
  rewrite checkAll_unfold, Hclient, Hnone. simpl.
  now destruct (Batch.isCancellationRequested env _).
Qed.

(** X7: a run that is not cancelled and in which no check fails sends one
    request for each document found, and returns [true] exactly when at
    least one document was found. *)
Theorem checkAll_complete (env : Batch.Environment) (t ext : list Batch.Event) :
  Batch.languageClient env = true ->
  getEnabledFileExtensions (Batch.enabled env) <> [] ->
  (forall t', Batch.isCancellationRequested env t' = false) ->
  (forall t' args, Batch.success (Batch.sendRequest env t' args) = true) ->
  snd (Batch.checkAllDocumentsInWorkspace env t) = t ++ ext ->
  Permutation (Batch.requested ext) (map uriToString (discovered env t)) /\
  (fst (Batch.checkAllDocumentsInWorkspace env t) = true <-> discovered env t <> []).
Proof.
  intros Hclient Hne Hcancel Hsuccess Hext.
  assert (Hlen : (List.length (getEnabledFileExtensions (Batch.enabled env)) =? 0)%nat = false).
  { destruct (getEnabledFileExtensions _); [congruence | reflexivity]. }
  pose proof (sort_perm (Batch.comparePaths env) (discovered env t)) as Hperm.
  fold (sortedDocuments env t) in Hperm.
  rewrite checkAll_unfold, Hclient, Hlen, Hcancel in Hext |- *. simpl in Hext |- *.
  destruct (checkLoop_all env (sortedDocuments env t) Hclient Hcancel Hsuccess
              (List.length (sortedDocuments env t)) 0 (t ++ discoveryEvents env t))
    as [ext' [Ht Hr]].
  rewrite Ht in Hext |- *.
  assert (Hreq : forall tail, Batch.requested tail = [] ->
                   (t ++ discoveryEvents env t) ++ ext' ++ tail = t ++ ext ->
                   Permutation (Batch.requested ext) (map uriToString (discovered env t))).
  { intros tail Htail E. rewrite <- app_assoc in E. apply app_inv_head in E. subst ext.
    rewrite !requested_app, Hr, Htail, app_nil_r. simpl.
    apply Permutation_map. now symmetry. }
  destruct (sortedDocuments env t) as [|d ds] eqn:Hsorted; simpl in Hext |- *.
  - apply Permutation_sym, Permutation_nil in Hperm.
    split; [|rewrite Hperm; split; [discriminate | congruence]].
    rewrite <- app_assoc in Hext. eapply Hreq; [|exact Hext]. reflexivity.
  - split.
    + rewrite <- app_assoc in Hext. eapply Hreq; [|exact Hext]. reflexivity.
    + split; [|reflexivity]. intros _ Hnil. rewrite Hnil in Hperm.
      apply Permutation_nil in Hperm. discriminate.
Qed.

Section Progress.
Variable env : Batch.Environment.

(** In the loop every request follows the report of the progress of its
    document. *)
Lemma checkLoop_progress (uris : list Uri) :
  forall (n i : nat) (t : list Batch.Event),
  exists ext,
    snd (Batch.checkLoop env n i uris t) = t ++ ext /\
    forall pre args r post,
      ext = pre ++ Batch.SendRequest args r :: post ->
      exists pre' u,
        pre = pre' ++ [Batch.UpdateTask (i + List.length (Batch.requested pre)) n
                         (Batch.checkingDocumentN
                            (i + List.length (Batch.requested pre) + 1) n
                            (Batch.basename env (fsPath u)))] /\
        nth_error uris (List.length (Batch.requested pre)) = Some u /\
        args = Batch.mkArgs (uriToString u) None None.
Proof.
  induction uris as [|u uris IH]; intros n i t.
  - exists []. simpl. rewrite app_nil_r. split; [reflexivity|]. intros; split_trace.
  - rewrite checkLoop_cons. cbv zeta.
    set (r1 := Batch.sendRequest env _ _).
    destruct (Batch.isCancellationRequested env (t ++ [_])).
    { eexists [_]. simpl. split; [reflexivity|]. intros; split_trace. }
    destruct (Batch.languageClient env); simpl.
    2:{ eexists [_; _]. rewrite <- app_assoc. simpl. split; [reflexivity|].
        intros; split_trace. }
    assert (Hfirst : forall args r,
               Batch.SendRequest (Batch.mkArgs (uriToString u) None None) r1
               = Batch.SendRequest args r ->
               exists pre' u0,
                 [Batch.UpdateTask i n
                    (Batch.checkingDocumentN (i + 1) n (Batch.basename env (fsPath u)))]
                 = pre' ++ [Batch.UpdateTask (i + 0) n
                              (Batch.checkingDocumentN (i + 0 + 1) n
                                 (Batch.basename env (fsPath u0)))] /\
                 nth_error (u :: uris) 0 = Some u0 /\
                 args = Batch.mkArgs (uriToString u0) None None).
    { intros args r E. injection E as <- _. exists [], u.
      rewrite Nat.add_0_r. repeat split. }
    destruct (Batch.success r1).
    + match goal with
      | |- context [Batch.checkLoop env n (S i) uris ?t'] =>
          destruct (IH n (S i) t') as [ext [Ht Hext]]
      end.
      eexists (_ :: _ :: ext). rewrite Ht, <- !app_assoc. simpl.
      split; [reflexivity|]. intros pre args r post E. split_trace.
      * now apply (Hfirst _ _ eq_refl).
      * destruct (Hext _ _ _ _ eq_refl) as (pre' & u0 & Hpre & Hnth & ->).
        eexists (_ :: _ :: pre'), u0. simpl. repeat split; [|exact Hnth].
        rewrite Hpre at 1. simpl. rewrite <- !Nat.add_succ_comm. reflexivity.
    + eexists [_; _; _]. rewrite <- app_assoc. simpl. split; [reflexivity|].
      intros pre args r post E. split_trace. now apply (Hfirst _ _ eq_refl).
Qed.

End Progress.

(** X8: every request of the batch checker comes right after the report
    of the progress of its document: before the request number j + 1 the
    progress is j of n, with n the number of documents found; the request is
    for the document at index j of the sorted list and carries its URI
    alone, neither a language id nor a text. *)
Theorem checkAll_progress (env : Batch.Environment) (t pre post : list Batch.Event)
    (args : Batch.CheckArgs) (r : Batch.CheckResult) :
  snd (Batch.checkAllDocumentsInWorkspace env t)
    = t ++ pre ++ Batch.SendRequest args r :: post ->
  let j := List.length (Batch.requested pre) in
  let n := List.length (discovered env t) in
  exists pre' u,
    pre = pre' ++ [Batch.UpdateTask j n
                     (Batch.checkingDocumentN (j + 1) n (Batch.basename env (fsPath u)))] /\
    nth_error (sortedDocuments env t) j = Some u /\
    args = Batch.mkArgs (uriToString u) None None.
Proof.
  intros H j n. subst j n. rewrite checkAll_unfold in H.
  destruct (negb _).
  { simpl in H. apply app_inv_head in H. split_trace. }
  destruct (Batch.isCancellationRequested env _).
  { simpl in H. apply app_inv_head in H. split_trace. }
  destruct (_ =? 0)%nat.
  { simpl in H. apply app_inv_head in H. split_trace. }
  cbv zeta in H.
  replace (List.length (discovered env t)) with (List.length (sortedDocuments env t))
    by (symmetry; apply Permutation_length, sort_perm).
  destruct (checkLoop_progress env (sortedDocuments env t)
              (List.length (sortedDocuments env t)) 0 (t ++ discoveryEvents env t))
    as [ext [Ht Hext]].
  destruct (Batch.checkLoop env _ 0 _ _) as [res t'].
  simpl in Ht. subst t'.
  assert (Hin : forall tail, (forall p a x q, tail <> p ++ Batch.SendRequest a x :: q) ->
                 (t ++ discoveryEvents env t) ++ ext ++ tail
                 = t ++ pre ++ Batch.SendRequest args r :: post ->
                 exists pre1, pre = discoveryEvents env t ++ pre1 /\
                   exists post1, ext = pre1 ++ Batch.SendRequest args r :: post1).
  { intros tail Htail E. rewrite <- app_assoc in E. apply app_inv_head in E.
    unfold discoveryEvents in E. simpl in E. split_trace.
    match goal with
    | E' : ext ++ tail = _ ++ _ :: _ |- _ =>
        apply app_split_at in E' as [[post1 [-> ->]] | [pre2 [_ E']]];
          [|now apply Htail in E']
    end.
    eexists. split; [reflexivity|]. eauto. }
  assert (Hdone : (exists pre1, pre = discoveryEvents env t ++ pre1 /\
                     exists post1, ext = pre1 ++ Batch.SendRequest args r :: post1) ->
                  exists pre' u,
                    pre = pre' ++ [Batch.UpdateTask (List.length (Batch.requested pre))
                                     (List.length (sortedDocuments env t))
                                     (Batch.checkingDocumentN
                                        (List.length (Batch.requested pre) + 1)
                                        (List.length (sortedDocuments env t))
                                        (Batch.basename env (fsPath u)))] /\
                    nth_error (sortedDocuments env t) (List.length (Batch.requested pre))
                    = Some u /\
                    args = Batch.mkArgs (uriToString u) None None).
  { intros (pre1 & -> & post1 & E).
    destruct (Hext _ _ _ _ E) as (pre' & u & Hpre & Hnth & ->).
    rewrite requested_app. simpl.
    exists (discoveryEvents env t ++ pre'), u. rewrite <- app_assoc.
    repeat split; [|exact Hnth]. simpl in Hpre. rewrite Hpre at 1. reflexivity. }
  apply Hdone.
  destruct res as [result|]; simpl in H.
  - rewrite <- (app_nil_r ext), app_assoc in H. rewrite <- app_assoc in H.
    apply (Hin [] (fun p a x q E => app_cons_not_nil _ _ _ E) H).
  - destruct (0 <? _)%nat; simpl in H; rewrite <- app_assoc in H;
      (eapply Hin; [|exact H]); intros p a x q E; split_trace.
Qed.

(** ** Further properties of the settings *)

Section MoreSettings.
Import Settings.
Variable cleanUp : list string -> list string.
Variable u : Uri.
Variable settingName : string.

(** The inline path keeps the other settings and the languages of the
    setting. *)
Lemma keys_set {V : Type} (o : JS.object V) (k language : string) (v : V) :
  In language (JS.keys o) -> In language (JS.keys (JS.set o k v)).
Proof.
  unfold JS.keys. induction o as [|[k' v'] o IH]; simpl; [intros []|].
  intros [<- | Hin]; destruct (k' =? k); simpl; auto.
Qed.

Lemma keys_merge (entries : LanguageSpecificSettingValue) (languages : list string)
    (language : string) :
  forall settingValue,
    In language (JS.keys settingValue) ->
    In language (JS.keys (fold_left (mergeLanguage cleanUp entries) languages settingValue)).
Proof.
  induction languages as [|l languages IH]; intros settingValue Hin; [exact Hin|].
  simpl. apply IH. unfold mergeLanguage. now apply keys_set.
Qed.

Lemma internalSetting_keeps (scopes : list ConfigurationTarget)
    (entries : LanguageSpecificSettingValue) (w : World) :
  let w' := snd (addToLanguageSpecificSettingInternalSetting
                   cleanUp u settingName scopes entries w) in
  (forall name, name <> settingName -> settings w' name = settings w name) /\
  (forall language, In language (JS.keys (settings w settingName)) ->
     In language (JS.keys (settings w' settingName))).
Proof.
  destruct (internalSetting_effect cleanUp u settingName scopes entries w)
    as (w' & ext & Hrun & _ & _ & _ & Hs & _).
  rewrite Hrun. simpl. destruct Hs as [-> | ->]; split; auto.
  - intros name Hne. apply String.eqb_neq in Hne. now rewrite Hne.
  - intros language Hin. rewrite String.eqb_refl. now apply keys_merge.
Qed.

Lemma externalFile_keeps (scopes : list ConfigurationTarget)
    (entries : LanguageSpecificSettingValue) (w : World) :
  let w' := addToLanguageSpecificSettingExternalFile
              cleanUp u settingName scopes entries w in
  (forall name, name <> settingName -> settings w' name = settings w name) /\
  (forall language, In language (JS.keys (settings w settingName)) ->
     In language (JS.keys (settings w' settingName))).
Proof.
  destruct (externalFile_carried cleanUp u settingName scopes entries w)
    as (_ & _ & Hs).
  split.
  - intros name Hne. destruct (Hs name) as [E | [E _]]; [exact E | contradiction].
  - intros language Hin. destruct (Hs settingName) as [-> | [_ (l & _ & ->)]];
      [exact Hin|].
    unfold mergeLanguage. now apply keys_set.
Qed.

End MoreSettings.

(** X9: a call whose resolved preference does not end with ExternalFile
    makes no call to the file manager, neither a lookup nor an append, and
    leaves every file as it was. *)
Theorem inline_preference_no_files (cleanUp : list string -> list string) (u : Uri)
    (settingName : string) (entries : Settings.LanguageSpecificSettingValue)
    (w : Settings.World) (s : string) :
  scopeStringOf w settingName = Some s ->
  JS.endsWith s "ExternalFile" = false ->
  let w' := Settings.addToLanguageSpecificSetting cleanUp u settingName entries w in
  filter isFileEvent (Settings.trace w') = filter isFileEvent (Settings.trace w) /\
  Settings.fileContents w' = Settings.fileContents w.
Proof.
  intros Hs Hend w'. subst w'. rewrite addToLanguageSpecificSetting_unfold. cbv zeta.
  rewrite Hs. unfold store. rewrite Hend.
  destruct (logAll_fields (scopeReads w settingName) w) as (Ht & _ & Hf & _).
  assert (Hreads : filter isFileEvent (Settings.trace (logAll (scopeReads w settingName) w))
                   = filter isFileEvent (Settings.trace w)).
  { rewrite Ht, filter_app. unfold scopeReads. simpl.
    destruct (Settings.configurationTarget w settingName);
      [simpl; now rewrite app_nil_r|].
    destruct (deprecatedAlias settingName); simpl; now rewrite app_nil_r. }
  assert (Hinline : forall scopes,
             filter isFileEvent
               (Settings.trace
                  (snd (Settings.addToLanguageSpecificSettingInternalSetting cleanUp u
                          settingName scopes entries (logAll (scopeReads w settingName) w))))
             = filter isFileEvent (Settings.trace w) /\
             Settings.fileContents
               (snd (Settings.addToLanguageSpecificSettingInternalSetting cleanUp u
                       settingName scopes entries (logAll (scopeReads w settingName) w)))
             = Settings.fileContents w).
  { intros scopes. rewrite internalSetting_no_files, Hreads. split; [reflexivity|].
    destruct (internalSetting_effect cleanUp u settingName scopes entries
                (logAll (scopeReads w settingName) w))
      as (w' & ext & Hrun & _ & _ & _ & _ & Hf' & _).
    rewrite Hrun. simpl. congruence. }
  repeat match goal with
         | |- context [if ?b then _ else _] => destruct b
         end; try apply Hinline.
  unfold Settings.log. cbn [Settings.trace Settings.fileContents].
  rewrite filter_app, Hreads, Hf. simpl. rewrite app_nil_r. split; reflexivity.
Qed.

(** X10: a call changes no other setting than the one it is given, and
    every language that the setting had it still has. *)
Theorem addEntries_keeps (cleanUp : list string -> list string) (u : Uri)
    (settingName : string) (entries : Settings.LanguageSpecificSettingValue)
    (w : Settings.World) :
  let w' := Settings.addToLanguageSpecificSetting cleanUp u settingName entries w in
  (forall name, name <> settingName ->
     Settings.settings w' name = Settings.settings w name) /\
  (forall language,
      In language (JS.keys (Settings.settings w settingName)) ->
      In language (JS.keys (Settings.settings w' settingName))).
Proof.
  intros w'. subst w'. rewrite addToLanguageSpecificSetting_unfold. cbv zeta.
  destruct (logAll_fields (scopeReads w settingName) w) as (_ & Hs & _).
  assert (Hstore : forall scopeString scopes,
             (forall name, name <> settingName ->
                Settings.settings
                  (store cleanUp u settingName entries scopeString scopes
                     (logAll (scopeReads w settingName) w)) name
                = Settings.settings w name) /\
             (forall language,
                 In language (JS.keys (Settings.settings w settingName)) ->
                 In language
                   (JS.keys (Settings.settings
                               (store cleanUp u settingName entries scopeString scopes
                                  (logAll (scopeReads w settingName) w)) settingName)))).
  { intros scopeString scopes. unfold store.
    destruct (match scopeString with None => true | Some s => JS.endsWith s "ExternalFile" end).
    - destruct (externalFile_keeps cleanUp u settingName scopes entries
                  (logAll (scopeReads w settingName) w)) as [Hother Hkeys].
      rewrite Hs in Hother, Hkeys. split; assumption.
    - destruct (internalSetting_keeps cleanUp u settingName scopes entries
                  (logAll (scopeReads w settingName) w)) as [Hother Hkeys].
      rewrite Hs in Hother, Hkeys. split; assumption. }
  destruct (scopeStringOf w settingName) as [s|];
    repeat match goal with
           | |- context [if ?b then _ else _] => destruct b
           end; try apply Hstore.
  unfold Settings.log. cbn [Settings.settings]. rewrite Hs. auto.
Qed.


Section Fallback.
Import Settings.
Variable cleanUp : list string -> list string.
Variable u : Uri.
Variable settingName : string.
Variable scopes : list ConfigurationTarget.
Variable entries : LanguageSpecificSettingValue.

Lemma filter_lookups_all (language : string) (targets : list ConfigurationTarget) :
  filter isFileEvent (map (lookupAt u settingName language) targets)
  = map (lookupAt u settingName language) targets.
Proof.
  induction targets as [|p targets IH]; simpl; [reflexivity|]. now rewrite IH.
Qed.

(** The step for a language without a file at any target of the chain:
    every target is asked, and no file is changed. *)
Lemma externalFileLanguage_without_file (pending : list Suspended) (w : World)
    (language : string) :
  Forall (noFileAt w u settingName language) scopes ->
  let state := externalFileLanguage cleanUp u settingName scopes entries
                 (pending, w) language in
  fileContents (snd state) = fileContents w /\
  filter isFileEvent (trace (snd state))
  = filter isFileEvent (trace w) ++ map (lookupAt u settingName language) scopes.
Proof.
  intros Hnone state. subst state.
  rewrite (externalFileLanguage_none cleanUp u settingName scopes entries
             pending w language Hnone).
  rewrite startInternalSetting_language.
  destruct (logAll_fields (map (lookupAt u settingName language) scopes) w)
    as (Ht & _ & Hf & _).
  set (wl := logAll (map (lookupAt u settingName language) scopes) w) in *.
  rewrite <- (filter_lookups_all language scopes).
  generalize dependent (map (lookupAt u settingName language) scopes).
  intros lookups wl Ht Hf. clearbody wl.
  destruct scopes as [|first rest]; cbn [fst snd logAll fold_left];
    unfold log; cbn [trace fileContents]; (split; [exact Hf|]);
    rewrite Ht, !filter_app; cbn; now rewrite !app_nil_r.
Qed.

(** The loop over the languages when none has a file: the file manager is
    asked for every language at every target, and no file is changed. *)
Lemma externalFile_without_files_fold (languages : list string) :
  forall (pending : list Suspended) (w : World),
    (forall language, In language languages ->
       Forall (noFileAt w u settingName language) scopes) ->
    let state := fold_left (externalFileLanguage cleanUp u settingName scopes entries)
                           languages (pending, w) in
    fileContents (snd state) = fileContents w /\
    filter isFileEvent (trace (snd state))
    = filter isFileEvent (trace w)
        ++ flat_map (fun language => map (lookupAt u settingName language) scopes)
                    languages.
Proof.
  induction languages as [|l languages IH]; intros pending w Hnone; cbn [fold_left].
  - cbn. now rewrite app_nil_r.
  - pose proof (Hnone l (or_introl eq_refl)) as Hl.
    destruct (externalFileLanguage_step cleanUp u settingName scopes entries pending w l)
      as (Hsame & _ & _).
    destruct (externalFileLanguage_without_file pending w l Hl) as [Hf Ht].
    destruct (externalFileLanguage cleanUp u settingName scopes entries (pending, w) l)
      as [pending1 w1]. cbn [fst snd] in *.
    destruct (IH pending1 w1) as [Hf' Ht'].
    { intros language Hin. apply (noFileAt_inputs u settingName w); [exact Hsame|].
      apply Hnone. now right. }
    split; [congruence|]. rewrite Ht', Ht. cbn [flat_map]. now rewrite app_assoc.
Qed.

End Fallback.

(** X12: in the external-file mode, when no target of the chain has an
    external file for any language of the incoming entries, the file manager
    is asked for every language, in the order of the keys, at every target,
    in the order of the chain, and for nothing else: nothing is appended and
    no file is changed. *)
Theorem externalFile_without_files (cleanUp : list string -> list string) (u : Uri)
    (settingName : string) (scopes : list Settings.ConfigurationTarget)
    (entries : Settings.LanguageSpecificSettingValue) (w : Settings.World) :
  (forall language, In language (JS.keys entries) ->
     Forall (noFileAt w u settingName language) scopes) ->
  let w' := Settings.addToLanguageSpecificSettingExternalFile
              cleanUp u settingName scopes entries w in
  filter isFileEvent (Settings.trace w')
  = filter isFileEvent (Settings.trace w)
      ++ flat_map (fun language => map (lookupAt u settingName language) scopes)
                  (JS.keys entries) /\
  Settings.fileContents w' = Settings.fileContents w.
Proof.
  intros Hnone. unfold Settings.addToLanguageSpecificSettingExternalFile.
  destruct (externalFile_without_files_fold cleanUp u settingName scopes entries
              (JS.keys entries) [] w Hnone) as [Hf Ht].
  destruct (fold_left _ _ _) as [pending w1]. cbn [snd] in *.
  destruct (settle_no_files (Settings.answersAwaited pending) pending w1) as [Hf' Ht'].
  split; [now rewrite Ht', Ht | now rewrite Hf', Hf].
Qed.

(** X13: when the clean-up routine absorbs entries that it has already
    taken in, adding the same entries a second time through the inline path
    changes nothing: every language of every setting has the entries that it
    had after the first call. *)
Theorem internalSetting_idempotent (cleanUp : list string -> list string) (u : Uri)
    (settingName : string) (scopes : list Settings.ConfigurationTarget)
    (entries : Settings.LanguageSpecificSettingValue) (w : Settings.World) :
  (forall a b, cleanUp (cleanUp (a ++ b) ++ b) = cleanUp (a ++ b)) ->
  NoDup (JS.keys entries) ->
  let once := snd (Settings.addToLanguageSpecificSettingInternalSetting
                     cleanUp u settingName scopes entries w) in
  let twice := snd (Settings.addToLanguageSpecificSettingInternalSetting
                      cleanUp u settingName scopes entries once) in
  forall name language,
    JS.get (Settings.settings twice name) language
    = JS.get (Settings.settings once name) language.
Proof.
  intros Habsorb Hnd once twice name language. subst twice.
  destruct (internalSetting_stored cleanUp u settingName scopes entries once)
    as [Hrej2 Hacc2].
  destruct (first_accepting once scopes) as [Hall | (pre & s & post & E & Hpre & Hs)].
  - now rewrite Hrej2.
  - assert (Hnot : ~ Forall (rejects once) scopes).
    { intros Hall. rewrite Forall_forall in Hall. apply (Hall s); [|exact Hs].
      rewrite E. apply in_elt. }
    rewrite Hacc2 by assumption.
    destruct (String.eqb_spec name settingName) as [->|]; [|reflexivity].
    destruct (in_dec string_dec language (JS.keys entries)) as [Hin | Hnin].
    + rewrite (merge_key cleanUp entries (JS.keys entries) language Hnd Hin).
      assert (Honce : JS.get (Settings.settings once settingName) language
                      = Some (cleanUp (existingEntries (Settings.settings w settingName)
                                         language
                                       ++ Settings.entriesOf entries language))).
      { subst once.
        destruct (internalSetting_stored cleanUp u settingName scopes entries w)
          as [_ Hacc1].
        destruct (internalSetting_effect cleanUp u settingName scopes entries w)
          as (w' & ext & Hrun & _ & _ & _ & _ & _ & _ & Hr & _).
        rewrite Hacc1.
        - rewrite String.eqb_refl. now apply merge_key.
        - intros Hall. apply Hnot. unfold rejects in *. rewrite Hrun. simpl.
          now rewrite Hr. }
      unfold existingEntries at 1. rewrite Honce. now rewrite Habsorb.
    + now apply merge_other.
Qed.

(** The normalization of the spec absorbs what it has taken in. *)
Lemma normalize_In (l : list string) (x : string) : In x (Settings.normalize l) <-> In x l.
Proof.
  unfold Settings.normalize, JS.sortStrings. rewrite sort_In. apply nodup_In.
Qed.

Lemma normalize_absorbs (a b : list string) :
  Settings.normalize (Settings.normalize (a ++ b) ++ b) = Settings.normalize (a ++ b).
Proof.
  apply strictly_sorted_unique.
  - apply sortStrings_sorted, NoDup_nodup.
  - apply sortStrings_sorted, NoDup_nodup.
  - intros x. rewrite !normalize_In, !in_app_iff, normalize_In, in_app_iff. tauto.
Qed.

(** ** The further properties on sample inputs *)

Lemma checkAll_reports_failure_witness :
  List.length
    (filter isShowError
       (Sample.untilFailure
          ++ Batch.SendRequest (Sample.request Sample.b_tex) Sample.failure
          :: Sample.afterFailure)) = 1 /\
  (exists pre m,
      Sample.untilFailure
        ++ Batch.SendRequest (Sample.request Sample.b_tex) Sample.failure
        :: Sample.afterFailure
      = pre ++ [Batch.ShowErrorMessage m]).
Proof.
  destruct (checkAll_reports_failure Sample.failing []
              (Sample.untilFailure
                 ++ Batch.SendRequest (Sample.request Sample.b_tex) Sample.failure
                 :: Sample.afterFailure) eq_refl) as [Hone Hlast].
  split; [exact Hone | exact (Hlast eq_refl)].
Defined.

Lemma checkAll_failure_causes_witness :
  fst (Batch.checkAllDocumentsInWorkspace Sample.emptyWorkspace []) = false /\
  (fst (Batch.checkAllDocumentsInWorkspace Sample.failing []) = false <->
   Batch.languageClient Sample.failing = false \/
   (exists args r,
       In (Batch.SendRequest args r)
          (Sample.untilFailure
             ++ Batch.SendRequest (Sample.request Sample.b_tex) Sample.failure
             :: Sample.afterFailure) /\
       Batch.success r = false) \/
   (Batch.languageClient Sample.failing = true /\
    Batch.isCancellationRequested Sample.failing
      ([] ++ [Batch.StartTask 10 Batch.findingAllDocumentsInWorkspace]) = false /\
    getEnabledFileExtensions (Batch.enabled Sample.failing) <> [] /\
    discovered Sample.failing [] = [])).
Proof.
  split.
  - assert (Hrun : snd (Batch.checkAllDocumentsInWorkspace Sample.emptyWorkspace [])
                   = [] ++ discoveryEvents Sample.emptyWorkspace []
                        ++ [Batch.FinishTask;
                            Batch.ShowErrorMessage
                              Batch.couldNotCheckDocumentsAsNoDocumentsWereFound])
      by reflexivity.
    apply (proj2 (checkAll_failure_causes Sample.emptyWorkspace [] _ Hrun)).
    right. right. split; [reflexivity|]. split; [reflexivity|].
    split; [vm_compute; discriminate | reflexivity].
  - exact (checkAll_failure_causes Sample.failing []
             (Sample.untilFailure
                ++ Batch.SendRequest (Sample.request Sample.b_tex) Sample.failure
                :: Sample.afterFailure) eq_refl).
Defined.

Lemma checkAll_nothing_found_witness :
  Batch.workspaceFolders Sample.noFolder = false /\
  ~ In (Batch.ShowErrorMessage Batch.couldNotCheckDocumentsAsNoDocumentsWereFound)
       (snd (Batch.checkAllDocumentsInWorkspace Sample.noFolder [])) /\
  In (Batch.ShowErrorMessage Batch.couldNotCheckDocumentsAsNoFoldersWereOpened)
     (snd (Batch.checkAllDocumentsInWorkspace Sample.noFolder [])).
Proof.
  destruct (checkAll_nothing_found Sample.noFolder []
              (snd (Batch.checkAllDocumentsInWorkspace Sample.noFolder [])) eq_refl)
    as [Hfound Hopened].
  split; [reflexivity|]. split.
  - intros Hin. apply Hfound in Hin as [_ Hfolders]. discriminate Hfolders.
  - apply Hopened. split; [|reflexivity].
    split; [reflexivity|]. split; [reflexivity|]. split; [discriminate | reflexivity].
Defined.

Lemma extensions_bounds_witness :
  getEnabledFileExtensions
    (EnabledList ["markdown"; "rsweave"; "bibtex"; "html"; "latex"])
  = getEnabledFileExtensions (EnabledBool true) /\
  getEnabledFileExtensions (EnabledList ["html"; "plaintext"]) = [].
Proof.
  split.
  - apply (proj2 (proj2 (extensions_bounds (EnabledBool true)))).
    intros id Hknown. unfold knownLanguage in Hknown.
    rewrite !orb_true_iff, !String.eqb_eq in Hknown. simpl.
    destruct Hknown as [[[-> | ->] | ->] | ->]; auto 6.
  - apply (proj1 (extensions_bounds (EnabledList ["html"; "plaintext"]))).
    intros id [<- | [<- | []]]; reflexivity.
Defined.

Lemma checkAll_nothing_enabled_witness :
  Batch.findFiles Sample.unknownIds [] "**/*.{}" = [Sample.a_tex] /\
  Batch.checkAllDocumentsInWorkspace Sample.unknownIds []
  = (true, [Batch.StartTask 10 Batch.findingAllDocumentsInWorkspace]).
Proof.
  split; [reflexivity|].
  apply (checkAll_nothing_enabled Sample.unknownIds []); [reflexivity|].
  intros id [<- | [<- | []]]; reflexivity.
Defined.

Lemma checkAll_complete_witness :
  Permutation
    (Batch.requested (snd (Batch.checkAllDocumentsInWorkspace Sample.plain [])))
    ["file:///w/b.tex"; "file:///w/a.tex"; "file:///w/c.tex"] /\
  fst (Batch.checkAllDocumentsInWorkspace Sample.plain []) = true.
Proof.
  destruct (checkAll_complete Sample.plain []
              (snd (Batch.checkAllDocumentsInWorkspace Sample.plain []))
              eq_refl ltac:(discriminate) (fun _ => eq_refl) (fun _ _ => eq_refl) eq_refl)
    as [Hperm Hresult].
  split; [exact Hperm|]. apply Hresult. discriminate.
Defined.

Lemma checkAll_progress_witness :
  exists pre' u,
    Sample.untilFailure = pre' ++ [Sample.progress 1 u] /\
    nth_error (sortedDocuments Sample.failing []) 1 = Some u /\
    Sample.request Sample.b_tex = Sample.request u.
Proof.
  exact (checkAll_progress Sample.failing [] Sample.untilFailure Sample.afterFailure
           (Sample.request Sample.b_tex) Sample.failure eq_refl).
Defined.

Lemma inline_preference_no_files_witness :
  filter isFileEvent
    (Settings.trace
       (Settings.addToLanguageSpecificSetting Settings.normalize Sample.document
          "dictionary" Sample.newEntries Sample.user)) = [] /\
  Settings.fileContents
    (Settings.addToLanguageSpecificSetting Settings.normalize Sample.document
       "dictionary" Sample.newEntries Sample.user)
  = Settings.fileContents Sample.user.
Proof.
  exact (inline_preference_no_files Settings.normalize Sample.document "dictionary"
           Sample.newEntries Sample.user "user" eq_refl eq_refl).
Defined.

Lemma addEntries_keeps_witness :
  Settings.settings
    (Settings.addToLanguageSpecificSetting Settings.normalize Sample.document
       "dictionary" Sample.newEntries Sample.user) "disabledRules" = [] /\
  In "de-DE"
     (JS.keys (Settings.settings
                 (Settings.addToLanguageSpecificSetting Settings.normalize
                    Sample.document "dictionary" Sample.newEntries Sample.user)
                 "dictionary")).
Proof.
  destruct (addEntries_keeps Settings.normalize Sample.document "dictionary"
              Sample.newEntries Sample.user) as [Hother Hkeys].
  split.
  - exact (Hother "disabledRules" ltac:(discriminate)).
  - apply Hkeys. simpl. auto.
Defined.


Lemma externalFile_without_files_witness :
  filter isFileEvent
    (Settings.trace
       (Settings.addToLanguageSpecificSettingExternalFile Settings.normalize
          Sample.document "dictionary" Sample.chain Sample.newEntries Sample.user))
  = [Settings.GetFirstExternalFilePath Sample.document "dictionary"
       Settings.WorkspaceFolder "en-US";
     Settings.GetFirstExternalFilePath Sample.document "dictionary"
       Settings.Workspace "en-US";
     Settings.GetFirstExternalFilePath Sample.document "dictionary"
       Settings.Global "en-US"] /\
  Settings.fileContents
    (Settings.addToLanguageSpecificSettingExternalFile Settings.normalize
       Sample.document "dictionary" Sample.chain Sample.newEntries Sample.user)
  = Settings.fileContents Sample.user.
Proof.
  apply (externalFile_without_files Settings.normalize Sample.document "dictionary"
           Sample.chain Sample.newEntries Sample.user).
  intros language _. repeat constructor.
Defined.

Lemma internalSetting_idempotent_witness :
  JS.get
    (Settings.settings
       (snd (Settings.addToLanguageSpecificSettingInternalSetting Settings.normalize
               Sample.document "dictionary" Sample.chain Sample.newEntries
               (snd (Settings.addToLanguageSpecificSettingInternalSetting
                       Settings.normalize Sample.document "dictionary" Sample.chain
                       Sample.newEntries Sample.user))))
       "dictionary") "en-US"
  = Some ["bar"; "foo"].
Proof.
  rewrite (internalSetting_idempotent Settings.normalize Sample.document "dictionary"
             Sample.chain Sample.newEntries Sample.user normalize_absorbs
             ltac:(repeat constructor; intros [])).
  reflexivity.
Defined.
